(** * Perceptronix: multinomial perceptron freezing and serialization

    A shallow embedding of [src/lib/multinomial_perceptron.cc]: the three
    specializations (dense/dense, sparse/dense, sparse/sparse) of the
    freezing constructor [MultinomialPerceptronTpl], of [Read] and of
    [Write], together with the weight cells, tables and classifier
    operations of the headers they rely on.

    Conventions.
    - Scalars are exact rationals ([Qc]); rounding is not modelled.
    - Sizes, indices and clock values are unbounded naturals.
    - Dense containers are lists; an index outside the container is the
      C++ undefined behaviour and is modelled by the outcome [Undefined].
    - Hash tables ([std::unordered_map], protobuf [Map]) are [gmap string];
      a loop over all entries of a hash table is [map_fold].
    - A method that mutates its receiver returns the new receiver. *)

From Stdlib Require Import QArith Qcanon.
From stdpp Require Import base option numbers list strings gmap fin_maps.

Local Close Scope Qc_scope.

(** ** Outcomes: a defined result, or C++ undefined behaviour *)

Inductive outcome (A : Type) : Type :=
| Ok (a : A)
| Undefined.
Arguments Ok {A} a.
Arguments Undefined {A}.

#[global] Instance outcome_ret : MRet outcome := @Ok.
#[global] Instance outcome_bind : MBind outcome := λ A B f m,
  match m with
  | Ok a => f a
  | Undefined => Undefined
  end.

(** [for (i = 0; i < n; ++i) body], threading the loop state. *)
Fixpoint for_range {St : Type} (body : nat → St → outcome St)
    (start n : nat) (s : St) : outcome St :=
  match n with
  | O => Ok s
  | S n' => s' ← body start s; for_range body (S start) n' s'
  end.

Definition for_loop {St : Type} (n : nat) (body : nat → St → outcome St)
    (s : St) : outcome St :=
  for_range body 0 n s.

(** [for (it = c.begin(); it != c.end(); ++it) body] over the entries of a
    hash table.  The C++ order is unspecified; [map_fold] visits every
    entry once. *)
Definition for_each {A St : Type} (m : gmap string A)
    (body : string → A → St → St) (s : St) : St :=
  map_fold body s m.

(** A loop over the entries of a hash table whose body may be undefined. *)
Definition for_each_ok {A St : Type} (m : gmap string A)
    (body : string → A → St → outcome St) (s : St) : outcome St :=
  for_each m (λ key x acc, s' ← acc; body key x s') (Ok s).

(** [for (x : xs) body], threading the loop state. *)
Fixpoint for_list {A St : Type} (xs : list A)
    (body : A → St → outcome St) (s : St) : outcome St :=
  match xs with
  | [] => Ok s
  | x :: xs' => s' ← body x s; for_list xs' body s'
  end.

(** [std::string::empty]. *)
Definition string_empty (s : string) : bool := bool_decide (s = "").

(** ** Weight cells *)

(** The clock as a scalar. *)
Definition of_time (t : nat) : Qc := Qc_of_Z (Z.of_nat t).

Module Weight.
(** Modelled from the spec: [weight.h] is not part of the sources; the
    unaveraged cell holds one scalar, read by [Get] and overwritten by
    [Set_] (the method [Set]). *)
Record t : Type := Make { weight_ : Qc }.

Definition zero : t := Make 0%Qc.
Definition Get (w : t) : Qc := weight_ w.
Definition Set_ (w : t) (weight : Qc) : t := Make weight.
End Weight.

Module AveragedWeight.
(** Modelled from the spec: [weight.h] is not part of the sources.  The
    averaged cell holds the true weight [weight_], the cached sum
    [aweight_] and the stamp [time_] of its last freshening. *)
Record t : Type := Make { weight_ : Qc; aweight_ : Qc; time_ : nat }.

Local Open Scope Qc_scope.

Definition zero : t := Make 0 0 0.

Definition Get (w : t) : Qc := weight_ w.

(** freshened_average =
      averaged_weight + (current_time - last_update_time) * true_weight *)
Definition freshen (w : t) (time : nat) : t :=
  Make (weight_ w)
       (aweight_ w
        + Qc_of_Z (Z.of_nat time - Z.of_nat (time_ w)) * weight_ w)
       time.

Definition update (w : t) (delta : Qc) (time : nat) : t :=
  let w' := freshen w time in
  Make (weight_ w' + delta) (aweight_ w') (time_ w').

(** Freshens the receiver, then normalizes by the clock; the division is
    guarded.  Returns the average and the freshened cell. *)
Definition GetAverage (w : t) (time : nat) : Qc * t :=
  let w' := freshen w time in
  (if decide (time = 0%nat) then 0 else aweight_ w' / of_time time, w').
End AveragedWeight.

(** ** The argmax *)

Section ArgMax.
Context {L : Type} (lt : L → L → Prop) `{!RelDecision lt}.

(** Modelled from the spec: the argmax and its tie-break are not part of
    the sources.  An entry beats the best one so far when its score is
    strictly higher, or equal with a lower label. *)
Definition beats (e best : L * Qc) : Prop :=
  (best.2 < e.2)%Qc ∨ (e.2 = best.2 ∧ lt e.1 best.1).

#[global] Instance beats_dec : RelDecision beats.
Proof. intros e best. unfold beats. apply _. Defined.

Definition better (best : option (L * Qc)) (e : L * Qc)
    : option (L * Qc) :=
  match best with
  | None => Some e
  | Some b => if decide (beats e b) then Some e else Some b
  end.

(** Modelled from the spec: returns the label with the highest score,
    the lowest such label on ties; [None] when there is no entry. *)
Definition ArgMax (entries : list (L * Qc)) : option L :=
  fst <$> foldl better None entries.

End ArgMax.

(** ** Tables *)

Module DenseTable.
(** Modelled from the spec: [table.h] is not part of the sources.  A
    dense table has all its [n] cells from construction; indexing is by
    position and is not checked. *)
Definition make {A : Type} (n : nat) (x : A) : list A := replicate n x.

Definition at_ {A : Type} (tbl : list A) (i : nat) : outcome A :=
  match tbl !! i with
  | Some x => Ok x
  | None => Undefined
  end.
End DenseTable.

Module SparseTable.
(** Modelled from the spec: [table.h] is not part of the sources.  A
    sparse table starts empty (the size passed at construction is a
    capacity hint); the mutable access creates the entry when absent. *)
Definition make {A : Type} (hint : nat) : gmap string A := ∅.

Definition mutable {A : Type} (tbl : gmap string A) (key : string)
    (fresh : A) : A :=
  default fresh (tbl !! key).
End SparseTable.

(** ** The structured encoder and decoder *)

(** The protobuf runtime is an external collaborator: [SerializeToOstream]
    yields the written stream, or fails; [ParseFromIstream] yields the
    message, or fails. *)
Record Codec (stream Msg : Type) : Type := MkCodec {
  SerializeToOstream : Msg → option stream;
  ParseFromIstream : stream → option Msg
}.
Arguments MkCodec {stream Msg} _ _.
Arguments SerializeToOstream {stream Msg} _ _.
Arguments ParseFromIstream {stream Msg} _ _.

(** What is parsed from a written stream is the message written. *)
Definition lawful {stream Msg : Type} (c : Codec stream Msg) : Prop :=
  ∀ (pb : Msg) (s : stream),
    SerializeToOstream c pb = Some s → ParseFromIstream c s = Some pb.


(** A framed stream: it parses when it holds exactly one message. *)
Definition framed (Msg : Type) : Codec (list Msg) Msg :=
  MkCodec (λ pb, Some [pb])
          (λ s, match s with [pb] => Some pb | _ => None end).

(** ** Serialized messages *)

Module DenseInnerTable_pb.
(** Modelled from the spec: the message declarations are not part of
    the sources.  A dense inner table is an ordered sequence of
    scalars, the repeated field [table]. *)
Record t : Type := Make { table : list Qc }.

Definition empty : t := Make [].
Definition add_table (pb : t) (x : Qc) : t := Make (table pb ++ [x]).
End DenseInnerTable_pb.

Module SparseInnerTable_pb.
(** Modelled from the spec: a sparse inner table is a mapping from
    label key to scalar, the map field [table]. *)
Record t : Type := Make { table : gmap string Qc }.

Definition empty : t := Make ∅.
Definition set_table (pb : t) (key : string) (x : Qc) : t :=
  Make (<[key := x]> (table pb)).
End SparseInnerTable_pb.

Module DenseMultinomialPerceptron_pb.
(** Modelled from the spec: [metadata], [inner_size] and, for a dense
    outer table, the ordered sequence [table] of inner tables. *)
Record t : Type := Make {
  metadata : string;
  inner_size : nat;
  table : list DenseInnerTable_pb.t
}.

Definition empty : t := Make "" 0 [].
Definition set_metadata (pb : t) (s : string) : t :=
  Make s (inner_size pb) (table pb).
Definition set_inner_size (pb : t) (n : nat) : t :=
  Make (metadata pb) n (table pb).
Definition table_size (pb : t) : nat := length (table pb).
Definition add_table (pb : t) (inner : DenseInnerTable_pb.t) : t :=
  Make (metadata pb) (inner_size pb) (table pb ++ [inner]).
End DenseMultinomialPerceptron_pb.

Module SparseDenseMultinomialPerceptron_pb.
(** Modelled from the spec: for a sparse outer table, [table] maps a
    feature key to a dense inner table. *)
Record t : Type := Make {
  metadata : string;
  inner_size : nat;
  table : gmap string DenseInnerTable_pb.t
}.

Definition empty : t := Make "" 0 ∅.
Definition set_metadata (pb : t) (s : string) : t :=
  Make s (inner_size pb) (table pb).
Definition set_inner_size (pb : t) (n : nat) : t :=
  Make (metadata pb) n (table pb).
Definition table_size (pb : t) : nat := size (table pb).
Definition set_table (pb : t) (key : string)
    (inner : DenseInnerTable_pb.t) : t :=
  Make (metadata pb) (inner_size pb) (<[key := inner]> (table pb)).
End SparseDenseMultinomialPerceptron_pb.

Module SparseMultinomialPerceptron_pb.
(** Modelled from the spec: for the fully sparse topology, [table] maps
    a feature key to a sparse inner table. *)
Record t : Type := Make {
  metadata : string;
  inner_size : nat;
  table : gmap string SparseInnerTable_pb.t
}.

Definition empty : t := Make "" 0 ∅.
Definition set_metadata (pb : t) (s : string) : t :=
  Make s (inner_size pb) (table pb).
Definition set_inner_size (pb : t) (n : nat) : t :=
  Make (metadata pb) n (table pb).
Definition table_size (pb : t) : nat := size (table pb).
Definition set_table (pb : t) (key : string)
    (inner : SparseInnerTable_pb.t) : t :=
  Make (metadata pb) (inner_size pb) (<[key := inner]> (table pb)).
End SparseMultinomialPerceptron_pb.

(** ** Dense outer table, dense inner tables *)

Module DenseMultinomialAveragedPerceptron.
(** Modelled from the spec: [multinomial_perceptron.h] is not part of
    the sources.  The trainable model owns its table of averaged cells,
    the number of labels and the clock. *)
Record t : Type := Make {
  table_ : list (list AveragedWeight.t);
  inner_size_ : nat;
  time_ : nat
}.

Definition Base (nfeats nlabels : nat) : t :=
  Make (DenseTable.make nfeats (DenseTable.make nlabels AveragedWeight.zero))
       nlabels 0.
Definition OuterSize (m : t) : nat := length (table_ m).
Definition InnerSize (m : t) : nat := inner_size_ m.
Definition Time (m : t) : nat := time_ m.

(** Every inner table has [InnerSize] cells. *)
Definition wf (m : t) : Prop :=
  Forall (λ row, length row = inner_size_ m) (table_ m).

(** Modelled from the spec: [multinomial_perceptron.h] is not part of
    the sources.  The score of a label is the sum, over the features, of
    the feature's true weight for the label. *)
Definition score_label (m : t) (features : list nat) (label : nat)
    : outcome Qc :=
  for_list features (λ f acc,
      row ← DenseTable.at_ (table_ m) f;
      cell ← DenseTable.at_ row label;
      Ok (acc + AveragedWeight.Get cell)%Qc)
    0%Qc.

Definition score (m : t) (features : list nat) : outcome (list Qc) :=
  for_loop (InnerSize m) (λ label scores,
      x ← score_label m features label;
      Ok (scores ++ [x]))
    [].

(** Modelled from the spec: the argmax label, lowest index on ties. *)
Definition predict (m : t) (features : list nat) : outcome nat :=
  scores ← score m features;
  match ArgMax Nat.lt (imap pair scores) with
  | Some label => Ok label
  | None => Undefined
  end.

(** Modelled from the spec: what a mistake does for one listed feature;
    its gold-label cell gets +1 and its predicted-label cell -1, each
    by [update] at the current time. *)
Definition update_feature (gold_label predicted_label time : nat)
    (f : nat) (tbl : list (list AveragedWeight.t))
    : outcome (list (list AveragedWeight.t)) :=
  row ← DenseTable.at_ tbl f;
  gold ← DenseTable.at_ row gold_label;
  let row := <[gold_label := AveragedWeight.update gold 1%Qc time]> row in
  pred ← DenseTable.at_ row predicted_label;
  let row :=
    <[predicted_label := AveragedWeight.update pred (-1)%Qc time]> row in
  Ok (<[f := row]> tbl).

(** Modelled from the spec: runs [predict]; on a mistake updates every
    listed feature; the clock advances in all cases. *)
Definition train_one (m : t) (features : list nat) (gold_label : nat)
    : outcome (nat * t) :=
  predicted_label ← predict m features;
  tbl ← (if decide (predicted_label = gold_label) then Ok (table_ m)
         else
           for_list features
             (update_feature gold_label predicted_label (time_ m))
             (table_ m));
  Ok (predicted_label, Make tbl (inner_size_ m) (time_ m + 1)).
End DenseMultinomialAveragedPerceptron.

Module DenseMultinomialPerceptron.
Module Avg := DenseMultinomialAveragedPerceptron.
Module PB := DenseMultinomialPerceptron_pb.
Import DenseTable.

(** Modelled from the spec: the class itself is declared in
    [multinomial_perceptron.h]; it owns a table of unaveraged cells and
    the number of labels. *)
Record t : Type := Make {
  table_ : list (list Weight.t);
  inner_size_ : nat
}.

Definition Base (outer_size inner_size : nat) : t :=
  Make (DenseTable.make outer_size (DenseTable.make inner_size Weight.zero))
       inner_size.
Definition OuterSize (m : t) : nat := length (table_ m).
Definition InnerSize (m : t) : nat := inner_size_ m.

Definition wf (m : t) : Prop :=
  Forall (λ row, length row = inner_size_ m) (table_ m).

(** multinomial_perceptron.cc, lines 31-42: the freezing constructor.
    Returns the new model and the averaged model as [GetAverage] left
    it. *)
Definition MultinomialPerceptronTpl (avg : Avg.t) : outcome (t * Avg.t) :=
  let this := Base (Avg.OuterSize avg) (Avg.InnerSize avg) in
  let time := Avg.Time avg in
  '(tbl, atbl) ← for_loop (Avg.OuterSize avg) (λ i '(tbl, atbl),
      ref ← at_ tbl i;
      avg_ref ← at_ atbl i;
      '(ref', avg_ref') ← for_loop (Avg.InnerSize avg)
        (λ j '(ref, avg_ref),
           cell ← at_ avg_ref j;
           let '(x, cell') := AveragedWeight.GetAverage cell time in
           w ← at_ ref j;
           Ok (<[j := Weight.Set_ w x]> ref, <[j := cell']> avg_ref))
        (ref, avg_ref);
      Ok (<[i := ref']> tbl, <[i := avg_ref']> atbl))
    (table_ this, Avg.table_ avg);
  Ok (Make tbl (inner_size_ this),
      Avg.Make atbl (Avg.inner_size_ avg) (Avg.time_ avg)).

Section Codec.
Context {stream : Type} (codec : Codec stream PB.t).

(** multinomial_perceptron.cc, lines 44-60.  [None] is the null
    pointer. *)
Definition Read (istrm : stream) : outcome (option t) :=
  match ParseFromIstream codec istrm with
  | None => Ok None
  | Some pb =>
      let outer_size := PB.table_size pb in
      let inner_size := PB.inner_size pb in
      let model := Base outer_size inner_size in
      tbl ← for_loop outer_size (λ i tbl,
          inner_table ← at_ tbl i;
          inner_table_pb ← at_ (PB.table pb) i;
          inner_table' ← for_loop inner_size (λ j inner_table,
              w ← at_ inner_table j;
              x ← at_ (DenseInnerTable_pb.table inner_table_pb) j;
              Ok (<[j := Weight.Set_ w x]> inner_table))
            inner_table;
          Ok (<[i := inner_table']> tbl))
        (table_ model);
      Ok (Some (Make tbl (inner_size_ model)))
  end.

(** The message assembled by [Write], lines 65-72. *)
Definition Write_pb (m : t) (metadata : string) : PB.t :=
  let pb := PB.empty in
  let pb := PB.set_metadata pb metadata in
  let pb := PB.set_inner_size pb (InnerSize m) in
  foldl (λ pb it,
           let inner_table_pb :=
             foldl (λ inner iit,
                      DenseInnerTable_pb.add_table inner (Weight.Get iit))
                   DenseInnerTable_pb.empty it in
           PB.add_table pb inner_table_pb)
        pb (table_ m).

(** multinomial_perceptron.cc, lines 62-74.  [None] is the result
    [false]; otherwise the stream written. *)
Definition Write (m : t) (metadata : string) : option stream :=
  SerializeToOstream codec (Write_pb m metadata).
End Codec.
End DenseMultinomialPerceptron.

(** ** Sparse outer table, dense inner tables *)

Module SparseDenseMultinomialAveragedPerceptron.
(** Modelled from the spec: [multinomial_perceptron.h] is not part of
    the sources.  The outer table is keyed by feature strings and its
    inner tables are created on first write. *)
Record t : Type := Make {
  table_ : gmap string (list AveragedWeight.t);
  inner_size_ : nat;
  time_ : nat
}.

Definition Base (nfeats nlabels : nat) : t :=
  Make (SparseTable.make nfeats) nlabels 0.
Definition OuterSize (m : t) : nat := size (table_ m).
Definition InnerSize (m : t) : nat := inner_size_ m.
Definition Time (m : t) : nat := time_ m.

Definition wf (m : t) : Prop :=
  map_Forall (λ _ row, length row = inner_size_ m) (table_ m).
End SparseDenseMultinomialAveragedPerceptron.

Module SparseDenseMultinomialPerceptron.
Module Avg := SparseDenseMultinomialAveragedPerceptron.
Module PB := SparseDenseMultinomialPerceptron_pb.
Import DenseTable.

(** Modelled from the spec: the class itself is declared in
    [multinomial_perceptron.h]. *)
Record t : Type := Make {
  table_ : gmap string (list Weight.t);
  inner_size_ : nat
}.

Definition Base (outer_size inner_size : nat) : t :=
  Make (SparseTable.make outer_size) inner_size.
Definition OuterSize (m : t) : nat := size (table_ m).
Definition InnerSize (m : t) : nat := inner_size_ m.

Definition wf (m : t) : Prop :=
  map_Forall (λ _ row, length row = inner_size_ m) (table_ m).

(** The inner table a sparse outer table creates on first access. *)
Definition fresh_inner (inner_size : nat) : list Weight.t :=
  DenseTable.make inner_size Weight.zero.

(** multinomial_perceptron.cc, lines 78-88: the freezing constructor. *)
Definition MultinomialPerceptronTpl (avg : Avg.t) : outcome (t * Avg.t) :=
  let this := Base (Avg.OuterSize avg) (Avg.InnerSize avg) in
  let time := Avg.Time avg in
  '(tbl, atbl) ← for_each_ok (Avg.table_ avg) (λ key row '(tbl, atbl),
      let ref := SparseTable.mutable tbl key
                   (fresh_inner (InnerSize this)) in
      '(ref', row') ← for_loop (InnerSize this) (λ j '(ref, row),
           cell ← at_ row j;
           let '(x, cell') := AveragedWeight.GetAverage cell time in
           w ← at_ ref j;
           Ok (<[j := Weight.Set_ w x]> ref, <[j := cell']> row))
        (ref, row);
      Ok (<[key := ref']> tbl, <[key := row']> atbl))
    (table_ this, Avg.table_ avg);
  Ok (Make tbl (inner_size_ this),
      Avg.Make atbl (Avg.inner_size_ avg) (Avg.time_ avg)).

Section Codec.
Context {stream : Type} (codec : Codec stream PB.t).

(** multinomial_perceptron.cc, lines 90-106. *)
Definition Read (istrm : stream) : outcome (option t) :=
  match ParseFromIstream codec istrm with
  | None => Ok None
  | Some pb =>
      let inner_size := PB.inner_size pb in
      let model := Base (PB.table_size pb) inner_size in
      let outer_table_pb := PB.table pb in
      tbl ← for_each_ok outer_table_pb (λ key _ tbl,
          let inner_table := SparseTable.mutable tbl key
                               (fresh_inner (InnerSize model)) in
          let inner_table_pb :=
            default DenseInnerTable_pb.empty (outer_table_pb !! key) in
          inner_table' ← for_loop inner_size (λ j inner_table,
              w ← at_ inner_table j;
              x ← at_ (DenseInnerTable_pb.table inner_table_pb) j;
              Ok (<[j := Weight.Set_ w x]> inner_table))
            inner_table;
          Ok (<[key := inner_table']> tbl))
        (table_ model);
      Ok (Some (Make tbl (inner_size_ model)))
  end.

(** The message assembled by [Write], lines 111-119. *)
Definition Write_pb (m : t) (metadata : string) : outcome PB.t :=
  let pb := PB.empty in
  let pb := PB.set_metadata pb metadata in
  let pb := PB.set_inner_size pb (InnerSize m) in
  for_each_ok (table_ m) (λ key row pb,
      let inner_table_pb :=
        default DenseInnerTable_pb.empty (PB.table pb !! key) in
      inner_table_pb' ← for_loop (InnerSize m) (λ j inner,
          w ← at_ row j;
          Ok (DenseInnerTable_pb.add_table inner (Weight.Get w)))
        inner_table_pb;
      Ok (PB.set_table pb key inner_table_pb'))
    pb.

(** multinomial_perceptron.cc, lines 108-121. *)
Definition Write (m : t) (metadata : string) : outcome (option stream) :=
  pb ← Write_pb m metadata;
  Ok (SerializeToOstream codec pb).
End Codec.
End SparseDenseMultinomialPerceptron.

(** ** Sparse outer table, sparse inner tables *)

Module SparseMultinomialAveragedPerceptron.
(** Modelled from the spec: [multinomial_perceptron.h] is not part of
    the sources.  Both levels are keyed by strings. *)
Record t : Type := Make {
  table_ : gmap string (gmap string AveragedWeight.t);
  inner_size_ : nat;
  time_ : nat
}.

Definition Base (nfeats nlabels : nat) : t :=
  Make (SparseTable.make nfeats) nlabels 0.
Definition OuterSize (m : t) : nat := size (table_ m).
Definition InnerSize (m : t) : nat := inner_size_ m.
Definition Time (m : t) : nat := time_ m.

(** Modelled from the spec: the scores of the labels of the listed
    features; a feature absent from the outer table contributes nothing
    and is not created. *)
Definition score (m : t) (features : list string) : gmap string Qc :=
  foldl (λ scores f,
           match table_ m !! f with
           | None => scores
           | Some inner =>
               for_each inner (λ label cell scores,
                   <[label := (default 0%Qc (scores !! label)
                               + AveragedWeight.Get cell)%Qc]> scores)
                 scores
           end)
        ∅ features.

(** Modelled from the spec: the argmax over the scored labels, visited
    in the order [iterate] yields them; ties go to the lowest label
    under [lt]. *)
Definition predict (lt : string → string → Prop) `{!RelDecision lt}
    (iterate : gmap string Qc → list (string * Qc))
    (m : t) (features : list string) : option string :=
  ArgMax lt (iterate (score m features)).
End SparseMultinomialAveragedPerceptron.

Module SparseMultinomialPerceptron.
Module Avg := SparseMultinomialAveragedPerceptron.
Module PB := SparseMultinomialPerceptron_pb.

(** Modelled from the spec: the class itself is declared in
    [multinomial_perceptron.h]. *)
Record t : Type := Make {
  table_ : gmap string (gmap string Weight.t);
  inner_size_ : nat
}.

Definition Base (outer_size inner_size : nat) : t :=
  Make (SparseTable.make outer_size) inner_size.
Definition OuterSize (m : t) : nat := size (table_ m).
Definition InnerSize (m : t) : nat := inner_size_ m.

(** The inner table a sparse outer table creates on first access. *)
Definition fresh_inner (inner_size : nat) : gmap string Weight.t :=
  SparseTable.make inner_size.

(** multinomial_perceptron.cc, lines 125-138: the freezing constructor. *)
Definition MultinomialPerceptronTpl (avg : Avg.t) : t * Avg.t :=
  let this := Base (Avg.OuterSize avg) (Avg.InnerSize avg) in
  let time := Avg.Time avg in
  let '(tbl, atbl) :=
    for_each (Avg.table_ avg) (λ key inner '(tbl, atbl),
        let ref := SparseTable.mutable tbl key
                     (fresh_inner (InnerSize this)) in
        let '(ref', inner') :=
          for_each inner (λ label cell '(ref, inner),
              (* Ignores the reserved empty string label. *)
              if string_empty label then (ref, inner)
              else
                let '(x, cell') := AveragedWeight.GetAverage cell time in
                let w := SparseTable.mutable ref label Weight.zero in
                (<[label := Weight.Set_ w x]> ref,
                 <[label := cell']> inner))
            (ref, inner) in
        (<[key := ref']> tbl, <[key := inner']> atbl))
      (table_ this, Avg.table_ avg) in
  (Make tbl (inner_size_ this),
   Avg.Make atbl (Avg.inner_size_ avg) (Avg.time_ avg)).

Section Codec.
Context {stream : Type} (codec : Codec stream PB.t).

(** multinomial_perceptron.cc, lines 140-156. *)
Definition Read (istrm : stream) : option t :=
  match ParseFromIstream codec istrm with
  | None => None
  | Some pb =>
      let model := Base (PB.table_size pb) (PB.inner_size pb) in
      let outer_table_pb := PB.table pb in
      let tbl :=
        for_each outer_table_pb (λ key _ tbl,
            let inner_table := SparseTable.mutable tbl key
                                 (fresh_inner (InnerSize model)) in
            let inner_table_pb :=
              SparseInnerTable_pb.table
                (default SparseInnerTable_pb.empty
                   (outer_table_pb !! key)) in
            let inner_table' :=
              for_each inner_table_pb (λ label x inner_table,
                  let w := SparseTable.mutable inner_table label
                             Weight.zero in
                  <[label := Weight.Set_ w x]> inner_table)
                inner_table in
            <[key := inner_table']> tbl)
          (table_ model) in
      Some (Make tbl (inner_size_ model))
  end.

(** The message assembled by [Write], lines 161-172. *)
Definition Write_pb (m : t) (metadata : string) : PB.t :=
  let pb := PB.empty in
  let pb := PB.set_metadata pb metadata in
  let pb := PB.set_inner_size pb (InnerSize m) in
  for_each (table_ m) (λ key inner pb,
      let inner_table_pb :=
        default SparseInnerTable_pb.empty (PB.table pb !! key) in
      let inner_table_pb' :=
        for_each inner (λ label w inner_pb,
            (* Ignores the reserved empty string label. *)
            if string_empty label then inner_pb
            else SparseInnerTable_pb.set_table inner_pb label
                   (Weight.Get w))
          inner_table_pb in
      PB.set_table pb key inner_table_pb')
    pb.

(** multinomial_perceptron.cc, lines 158-174. *)
Definition Write (m : t) (metadata : string) : option stream :=
  SerializeToOstream codec (Write_pb m metadata).
End Codec.
End SparseMultinomialPerceptron.


(** ** Direct recomputation of the average *)

(** A cell's history: the deltas and the clock values of its updates. *)
Definition apply_updates (w : AveragedWeight.t) (us : list (Qc * nat))
    : AveragedWeight.t :=
  foldl (λ w u, AveragedWeight.update w u.1 u.2) w us.

(** The true weight during step [s]: the deltas received up to [s]. *)
Fixpoint weight_at (us : list (Qc * nat)) (s : nat) : Qc :=
  match us with
  | [] => 0%Qc
  | u :: us' =>
      if decide (u.2 ≤ s) then (u.1 + weight_at us' s)%Qc
      else weight_at us' s
  end.

(** The sum of [f] over the [n] steps from [start]. *)
Fixpoint sum_over (f : nat → Qc) (start n : nat) : Qc :=
  match n with
  | O => 0%Qc
  | S n' => (f start + sum_over f (S start) n')%Qc
  end.

(** The mean of the step function over the steps [0, T). *)
Definition direct_average (us : list (Qc * nat)) (T : nat) : Qc :=
  (sum_over (weight_at us) 0 T / of_time T)%Qc.

(** [t1 < t2 < ... < tk]. *)
Fixpoint increasing (ts : list nat) : Prop :=
  match ts with
  | t1 :: (t2 :: _) as rest => t1 < t2 ∧ increasing rest
  | _ => True
  end.

(** [t0 ≤ t1 ≤ ... ≤ tk ≤ T] for the update times [t1 .. tk]. *)
Fixpoint chain (t0 : nat) (us : list (Qc * nat)) (T : nat) : Prop :=
  match us with
  | [] => t0 ≤ T
  | u :: us' => t0 ≤ u.2 ∧ chain u.2 us' T
  end.

(** ** Cells of two-level tables *)

Definition dense_cell {A : Type} (tbl : list (list A)) (i j : nat)
    : option A :=
  row ← tbl !! i; row !! j.

Definition sparse_dense_cell {A : Type} (tbl : gmap string (list A))
    (key : string) (j : nat) : option A :=
  row ← tbl !! key; row !! j.

Definition sparse_cell {A : Type} (tbl : gmap string (gmap string A))
    (key label : string) : option A :=
  inner ← tbl !! key; inner !! label.

(** ** The perceptron update, cell by cell *)




(** A strict total order on label strings, through their encoding. *)
Definition encoded_lt (a b : string) : Prop :=
  (encode a < encode b)%positive.

#[global] Instance encoded_lt_dec : RelDecision encoded_lt.
Proof. intros a b. unfold encoded_lt. apply _. Defined.

(** ** Sample models *)

Definition sample_cell (weight aweight : Z) (time : nat)
    : AveragedWeight.t :=
  AveragedWeight.Make (Qc_of_Z weight) (Qc_of_Z aweight) time.

Definition sample_dense_averaged : DenseMultinomialAveragedPerceptron.t :=
  DenseMultinomialAveragedPerceptron.Make
    [[sample_cell (-1) (-3) 3; sample_cell 1 3 3];
     [sample_cell 0 0 0; sample_cell 2 0 1]]
    2 4.

Definition sample_sparse_dense_averaged
    : SparseDenseMultinomialAveragedPerceptron.t :=
  SparseDenseMultinomialAveragedPerceptron.Make
    {[ "bias" := [sample_cell (-1) (-3) 3; sample_cell 1 3 3] ]}
    2 4.

Definition sample_sparse_averaged : SparseMultinomialAveragedPerceptron.t :=
  SparseMultinomialAveragedPerceptron.Make
    {[ "bias" := {[ "NOUN" := sample_cell 1 3 3;
                    "" := sample_cell 5 0 0 ]} ]}
    2 4.

Definition sample_weight (weight : Z) : Weight.t :=
  Weight.Make (Qc_of_Z weight).

Definition sample_dense : DenseMultinomialPerceptron.t :=
  DenseMultinomialPerceptron.Make
    [[sample_weight (-1); sample_weight 1];
     [sample_weight 0; sample_weight 2]]
    2.

Definition sample_sparse_dense : SparseDenseMultinomialPerceptron.t :=
  SparseDenseMultinomialPerceptron.Make
    {[ "bias" := [sample_weight (-1); sample_weight 1] ]} 2.

Definition sample_sparse : SparseMultinomialPerceptron.t :=
  SparseMultinomialPerceptron.Make
    {[ "bias" := {[ "NOUN" := sample_weight 1 ]} ]} 2.

(** A fully sparse model holding a cell under the reserved label. *)
Definition reserved_sparse : SparseMultinomialPerceptron.t :=
  SparseMultinomialPerceptron.Make
    {[ "bias" := {[ "" := sample_weight 1 ]} ]} 1.

(** ** Closed forms of the loops *)

Definition frozen (time : nat) (cell : AveragedWeight.t) : Weight.t :=
  Weight.Make (AveragedWeight.GetAverage cell time).1.

Definition freshened (time : nat) (cell : AveragedWeight.t)
    : AveragedWeight.t :=
  (AveragedWeight.GetAverage cell time).2.

Definition frozen_row (time : nat) (row : list AveragedWeight.t)
    : list Weight.t :=
  frozen time <$> row.

Definition freshened_row (time : nat) (row : list AveragedWeight.t)
    : list AveragedWeight.t :=
  freshened time <$> row.

Definition row_pb (row : list Weight.t) : DenseInnerTable_pb.t :=
  DenseInnerTable_pb.Make (Weight.Get <$> row).

Definition row_of_pb (inner_size : nat) (inner : DenseInnerTable_pb.t)
    : list Weight.t :=
  Weight.Make <$> take inner_size (DenseInnerTable_pb.table inner).

(** Every inner table of the message has at least [inner_size] scalars. *)
Definition Dense_pb_wf (pb : DenseMultinomialPerceptron_pb.t) : Prop :=
  Forall (λ inner, DenseMultinomialPerceptron_pb.inner_size pb
                   ≤ length (DenseInnerTable_pb.table inner))
         (DenseMultinomialPerceptron_pb.table pb).

(** Entries whose label is not the reserved empty string. *)
Definition real_label {A : Type} (entry : string * A) : Prop :=
  entry.1 ≠ "".

#[global] Instance real_label_dec {A : Type} (entry : string * A) :
  Decision (real_label entry).
Proof. unfold real_label. apply _. Defined.

Definition drop_reserved {A : Type} (inner : gmap string A)
    : gmap string A :=
  filter real_label inner.

Definition sparse_inner_pb (inner : gmap string Weight.t)
    : SparseInnerTable_pb.t :=
  SparseInnerTable_pb.Make (Weight.Get <$> drop_reserved inner).

Definition sparse_inner_of_pb (inner : SparseInnerTable_pb.t)
    : gmap string Weight.t :=
  Weight.Make <$> SparseInnerTable_pb.table inner.

Definition frozen_inner (time : nat) (inner : gmap string AveragedWeight.t)
    : gmap string Weight.t :=
  frozen time <$> drop_reserved inner.

(** The averaged inner table after freezing: every cell but the reserved
    one has been freshened. *)
Definition freshened_inner (time : nat)
    (inner : gmap string AveragedWeight.t)
    : gmap string AveragedWeight.t :=
  (freshened time <$> drop_reserved inner) ∪ inner.

(** Every inner table of the message has at least [inner_size] scalars. *)
Definition SparseDense_pb_wf (pb : SparseDenseMultinomialPerceptron_pb.t)
    : Prop :=
  map_Forall (λ _ inner, SparseDenseMultinomialPerceptron_pb.inner_size pb
                         ≤ length (DenseInnerTable_pb.table inner))
             (SparseDenseMultinomialPerceptron_pb.table pb).

(** ** Messages as read and as written *)

(** Every inner table of the message has exactly [inner_size] scalars. *)
Definition Dense_pb_canonical (pb : DenseMultinomialPerceptron_pb.t)
    : Prop :=
  Forall (λ inner, length (DenseInnerTable_pb.table inner)
                   = DenseMultinomialPerceptron_pb.inner_size pb)
         (DenseMultinomialPerceptron_pb.table pb).

Definition SparseDense_pb_canonical
    (pb : SparseDenseMultinomialPerceptron_pb.t) : Prop :=
  map_Forall (λ _ inner, length (DenseInnerTable_pb.table inner)
                         = SparseDenseMultinomialPerceptron_pb.inner_size pb)
             (SparseDenseMultinomialPerceptron_pb.table pb).

(** No inner table of the message has the reserved empty label. *)
Definition Sparse_pb_canonical (pb : SparseMultinomialPerceptron_pb.t)
    : Prop :=
  map_Forall (λ _ inner, SparseInnerTable_pb.table inner !! "" = None)
             (SparseMultinomialPerceptron_pb.table pb).

(** No inner table of the model has the reserved empty label. *)
Definition reserved_free (m : SparseMultinomialPerceptron.t) : Prop :=
  map_Forall (λ _ (inner : gmap string Weight.t), inner !! "" = None)
             (SparseMultinomialPerceptron.table_ m).

(** The scalars of a message, place by place. *)
Definition Dense_pb_cell (pb : DenseMultinomialPerceptron_pb.t)
    (i j : nat) : option Qc :=
  inner ← DenseMultinomialPerceptron_pb.table pb !! i;
  DenseInnerTable_pb.table inner !! j.

Definition SparseDense_pb_cell (pb : SparseDenseMultinomialPerceptron_pb.t)
    (key : string) (j : nat) : option Qc :=
  inner ← SparseDenseMultinomialPerceptron_pb.table pb !! key;
  DenseInnerTable_pb.table inner !! j.

Definition Sparse_pb_cell (pb : SparseMultinomialPerceptron_pb.t)
    (key label : string) : option Qc :=
  inner ← SparseMultinomialPerceptron_pb.table pb !! key;
  SparseInnerTable_pb.table inner !! label.

(** Sample messages: rows of the declared size, a row one scalar short,
    a row one scalar long, and a sparse message with the reserved label. *)
Definition sample_dense_pb : DenseMultinomialPerceptron_pb.t :=
  DenseMultinomialPerceptron_pb.Make "v1" 2
    [DenseInnerTable_pb.Make [Qc_of_Z (-1); Qc_of_Z 1];
     DenseInnerTable_pb.Make [Qc_of_Z 0; Qc_of_Z 2]].

Definition short_dense_pb : DenseMultinomialPerceptron_pb.t :=
  DenseMultinomialPerceptron_pb.Make "v1" 2
    [DenseInnerTable_pb.Make [Qc_of_Z (-1); Qc_of_Z 1];
     DenseInnerTable_pb.Make [Qc_of_Z 0]].

Definition long_dense_pb : DenseMultinomialPerceptron_pb.t :=
  DenseMultinomialPerceptron_pb.Make "v1" 2
    [DenseInnerTable_pb.Make [Qc_of_Z (-1); Qc_of_Z 1; Qc_of_Z 7]].

Definition sample_sparse_dense_pb : SparseDenseMultinomialPerceptron_pb.t :=
  SparseDenseMultinomialPerceptron_pb.Make "v1" 2
    {[ "bias" := DenseInnerTable_pb.Make [Qc_of_Z (-1); Qc_of_Z 1] ]}.

Definition short_sparse_dense_pb : SparseDenseMultinomialPerceptron_pb.t :=
  SparseDenseMultinomialPerceptron_pb.Make "v1" 2
    {[ "bias" := DenseInnerTable_pb.Make [Qc_of_Z (-1)] ]}.

Definition sample_sparse_pb : SparseMultinomialPerceptron_pb.t :=
  SparseMultinomialPerceptron_pb.Make "v1" 2
    {[ "bias" := SparseInnerTable_pb.Make {[ "NOUN" := Qc_of_Z 1 ]} ]}.

Definition reserved_sparse_pb : SparseMultinomialPerceptron_pb.t :=
  SparseMultinomialPerceptron_pb.Make "v1" 2
    {[ "bias" := SparseInnerTable_pb.Make {[ "" := Qc_of_Z 1 ]} ]}.

(** * Loop rules *)

Section Loops.
Context {St : Type}.
Implicit Types (body : nat → St → outcome St) (Inv : nat → St → Prop).

Lemma for_range_inv Inv body start n s :
  Inv start s →
  (∀ i s, start ≤ i < start + n → Inv i s →
          ∃ s', body i s = Ok s' ∧ Inv (S i) s') →
  ∃ s', for_range body start n s = Ok s' ∧ Inv (start + n) s'.
Proof.
  revert start s. induction n as [|n IH]; intros start s H0 Hstep; simpl.
  - exists s. by rewrite Nat.add_0_r.
  - destruct (Hstep start s) as (s1 & -> & H1); [lia|done|]. simpl.
    destruct (IH (S start) s1) as (s2 & -> & H2); [done| |].
    + intros i s' ? ?. apply Hstep; [lia|done].
    + exists s2. split; [done|]. by replace (start + S n) with (S start + n) by lia.
Qed.

Lemma for_loop_inv Inv body n s :
  Inv 0 s →
  (∀ i s, i < n → Inv i s → ∃ s', body i s = Ok s' ∧ Inv (S i) s') →
  ∃ s', for_loop n body s = Ok s' ∧ Inv n s'.
Proof.
  intros H0 Hstep. apply (for_range_inv Inv body 0 n s H0).
  intros i s' ? ?. apply Hstep; [lia|done].
Qed.
End Loops.

Lemma at_Some {A : Type} (l : list A) (i : nat) (x : A) :
  l !! i = Some x → DenseTable.at_ l i = Ok x.
Proof. unfold DenseTable.at_. by intros ->. Qed.

Lemma at_lt {A : Type} (l : list A) (i : nat) :
  i < length l → ∃ x, l !! i = Some x ∧ DenseTable.at_ l i = Ok x.
Proof.
  intros Hi. destruct (lookup_lt_is_Some_2 l i Hi) as [x Hx].
  exists x. split; [done|]. by apply at_Some.
Qed.

Lemma at_Ok {A : Type} (l : list A) (i : nat) (x : A) :
  DenseTable.at_ l i = Ok x → l !! i = Some x.
Proof. unfold DenseTable.at_. destruct (l !! i); [|done]. by intros [= ->]. Qed.

Lemma bind_Ok {A B : Type} (m : outcome A) (f : A → outcome B) (y : B) :
  m ≫= f = Ok y → ∃ x, m = Ok x ∧ f x = Ok y.
Proof. destruct m as [x|]; [|done]. intros H. by exists x. Qed.

(** Overwriting position [j] extends the rewritten prefix by one cell. *)
Lemma insert_take_drop {A B : Type} (f : A → B) (src : list A)
    (cur : list B) (j : nat) (c : A) :
  src !! j = Some c → j < length cur →
  <[j := f c]> ((f <$> take j src) ++ drop j cur)
  = (f <$> take (S j) src) ++ drop (S j) cur.
Proof.
  intros Hc Hlen. pose proof (lookup_lt_Some _ _ _ Hc) as Hj.
  destruct (lookup_lt_is_Some_2 cur j) as [y Hy]; [done|].
  rewrite (take_S_r _ _ _ Hc), fmap_app, <-app_assoc. simpl.
  rewrite (drop_S _ _ _ Hy).
  rewrite insert_app_r_alt; rewrite length_fmap, length_take; [|lia].
  by replace (j - j `min` length src) with 0 by lia.
Qed.

(** * Dense inner loops *)

(** The inner loop of the freezing constructors (lines 39-40, 85-86). *)
Lemma freeze_inner_loop (time n : nat) (ref0 : list Weight.t)
    (row : list AveragedWeight.t) :
  length ref0 = n → length row = n →
  for_loop n
    (λ j '(ref, avg_ref),
       cell ← DenseTable.at_ avg_ref j;
       let '(x, cell') := AveragedWeight.GetAverage cell time in
       w ← DenseTable.at_ ref j;
       Ok (<[j := Weight.Set_ w x]> ref, <[j := cell']> avg_ref))
    (ref0, row)
  = Ok (frozen_row time row, freshened_row time row).
Proof.
  intros Href Hrow.
  edestruct (for_loop_inv
    (λ j (s : list Weight.t * list AveragedWeight.t),
       s.1 = (frozen time <$> take j row) ++ drop j ref0 ∧
       s.2 = (freshened time <$> take j row) ++ drop j row))
    as (s' & Hrun & Hfst & Hsnd); [| |rewrite Hrun].
  - done.
  - intros j [ref avg_ref] Hj [H1 H2]; simpl in *; subst ref avg_ref.
    destruct (lookup_lt_is_Some_2 row j) as [cell Hcell]; [lia|].
    destruct (lookup_lt_is_Some_2 ref0 j) as [w Hw]; [lia|].
    assert (((freshened time <$> take j row) ++ drop j row) !! j = Some cell)
      as Hc.
    { rewrite lookup_app_r; rewrite length_fmap, length_take; [|lia].
      rewrite lookup_drop. rewrite <-Hcell. f_equal. lia. }
    assert (((frozen time <$> take j row) ++ drop j ref0) !! j = Some w)
      as Hr.
    { rewrite lookup_app_r; rewrite length_fmap, length_take; [|lia].
      rewrite lookup_drop. rewrite <-Hw. f_equal. lia. }
    rewrite (at_Some _ _ _ Hc). simpl. rewrite (at_Some _ _ _ Hr). simpl.
    eexists. split; [done|]. simpl. split.
    + exact (insert_take_drop (frozen time) row ref0 j cell Hcell
               ltac:(lia)).
    + exact (insert_take_drop (freshened time) row row j cell Hcell
               ltac:(lia)).
  - destruct s' as [r a]; simpl in *. subst r a.
    rewrite !firstn_all2, !skipn_all2 by lia. by rewrite !app_nil_r.
Qed.

(** * Dense/dense: the freezing constructor in closed form *)

Lemma lookup_rewritten_prefix {A B : Type} (f : A → B) (src : list A)
    (cur : list B) (i : nat) (y : B) :
  cur !! i = Some y → i ≤ length src →
  ((f <$> take i src) ++ drop i cur) !! i = Some y.
Proof.
  intros Hy Hi.
  rewrite lookup_app_r; rewrite length_fmap, length_take; [|lia].
  rewrite lookup_drop, <-Hy. f_equal. lia.
Qed.

Lemma Dense_freeze_run (avg : DenseMultinomialAveragedPerceptron.t) :
  DenseMultinomialAveragedPerceptron.wf avg →
  DenseMultinomialPerceptron.MultinomialPerceptronTpl avg
  = Ok (DenseMultinomialPerceptron.Make
          (frozen_row (DenseMultinomialAveragedPerceptron.time_ avg)
             <$> DenseMultinomialAveragedPerceptron.table_ avg)
          (DenseMultinomialAveragedPerceptron.inner_size_ avg),
        DenseMultinomialAveragedPerceptron.Make
          (freshened_row (DenseMultinomialAveragedPerceptron.time_ avg)
             <$> DenseMultinomialAveragedPerceptron.table_ avg)
          (DenseMultinomialAveragedPerceptron.inner_size_ avg)
          (DenseMultinomialAveragedPerceptron.time_ avg)).
Proof.
  destruct avg as [T n time]. unfold DenseMultinomialAveragedPerceptron.wf.
  simpl. intros Hwf.
  unfold DenseMultinomialPerceptron.MultinomialPerceptronTpl,
    DenseMultinomialPerceptron.Base,
    DenseMultinomialAveragedPerceptron.OuterSize,
    DenseMultinomialAveragedPerceptron.InnerSize,
    DenseMultinomialAveragedPerceptron.Time, DenseTable.make.
  cbn [DenseMultinomialAveragedPerceptron.table_
       DenseMultinomialAveragedPerceptron.inner_size_
       DenseMultinomialAveragedPerceptron.time_
       DenseMultinomialPerceptron.table_
       DenseMultinomialPerceptron.inner_size_].
  set (tbl0 := replicate (length T) (replicate n Weight.zero)).
  edestruct (for_loop_inv
    (λ i (s : list (list Weight.t) * list (list AveragedWeight.t)),
       s.1 = (frozen_row time <$> take i T) ++ drop i tbl0 ∧
       s.2 = (freshened_row time <$> take i T) ++ drop i T))
    as (s' & Hrun & Hfst & Hsnd); [| |rewrite Hrun].
  - done.
  - intros i [tbl atbl] Hi [H1 H2]; cbn [fst snd] in *; subst tbl atbl.
    destruct (lookup_lt_is_Some_2 T i Hi) as [row Hrow].
    assert (length row = n) as Hlen.
    { by apply (Forall_lookup_1 _ _ _ _ Hwf Hrow). }
    assert (tbl0 !! i = Some (replicate n Weight.zero)) as Hzero.
    { unfold tbl0. by apply lookup_replicate_2. }
    rewrite (at_Some _ _ _
      (lookup_rewritten_prefix _ T tbl0 i _ Hzero ltac:(lia))).
    cbn [mbind outcome_bind].
    rewrite (at_Some _ _ _
      (lookup_rewritten_prefix _ T T i _ Hrow ltac:(lia))).
    cbn [mbind outcome_bind].
    rewrite (freeze_inner_loop time n _ row); [|by rewrite length_replicate|done].
    cbn [mbind outcome_bind].
    eexists. split; [done|]. cbn [fst snd]. split.
    + apply (insert_take_drop (frozen_row time) T tbl0 i row Hrow).
      unfold tbl0. by rewrite length_replicate.
    + by apply (insert_take_drop (freshened_row time) T T i row Hrow).
  - destruct s' as [r a]; cbn [fst snd] in *. subst r a.
    rewrite !firstn_all2, !skipn_all2 by (unfold tbl0; rewrite ?length_replicate; lia).
    by rewrite !app_nil_r.
Qed.

(** * Dense/dense: [Write] and [Read] in closed form *)

Lemma add_table_foldl (row : list Weight.t) (inner : DenseInnerTable_pb.t) :
  foldl (λ inner iit, DenseInnerTable_pb.add_table inner (Weight.Get iit))
        inner row
  = DenseInnerTable_pb.Make
      (DenseInnerTable_pb.table inner ++ (Weight.Get <$> row)).
Proof.
  revert inner. induction row as [|w row IH]; intros [xs]; simpl.
  - by rewrite app_nil_r.
  - rewrite IH. simpl. by rewrite <-app_assoc.
Qed.

Lemma Dense_Write_pb_eq (m : DenseMultinomialPerceptron.t)
    (metadata : string) :
  DenseMultinomialPerceptron.Write_pb m metadata
  = DenseMultinomialPerceptron_pb.Make metadata
      (DenseMultinomialPerceptron.inner_size_ m)
      (row_pb <$> DenseMultinomialPerceptron.table_ m).
Proof.
  unfold DenseMultinomialPerceptron.Write_pb.
  change (DenseMultinomialPerceptron_pb.set_inner_size _ _)
    with (DenseMultinomialPerceptron_pb.Make metadata
            (DenseMultinomialPerceptron.inner_size_ m) []).
  change (row_pb <$> DenseMultinomialPerceptron.table_ m)
    with ([] ++ (row_pb <$> DenseMultinomialPerceptron.table_ m)).
  generalize (@nil DenseInnerTable_pb.t).
  induction (DenseMultinomialPerceptron.table_ m) as [|row T IH];
    intros acc; simpl.
  - by rewrite app_nil_r.
  - rewrite add_table_foldl. unfold DenseMultinomialPerceptron_pb.add_table.
    simpl. rewrite IH. by rewrite <-app_assoc.
Qed.

(** The inner loop of the dense readers (lines 56-57, 102-103). *)
Lemma read_inner_loop (n : nat) (cur0 : list Weight.t) (src : list Qc) :
  length cur0 = n → n ≤ length src →
  for_loop n
    (λ j inner_table,
       w ← DenseTable.at_ inner_table j;
       x ← DenseTable.at_ src j;
       Ok (<[j := Weight.Set_ w x]> inner_table))
    cur0
  = Ok (Weight.Make <$> take n src).
Proof.
  intros Hcur Hsrc.
  edestruct (for_loop_inv
    (λ j (s : list Weight.t),
       s = (Weight.Make <$> take j src) ++ drop j cur0))
    as (s' & Hrun & Hs); [| |rewrite Hrun].
  - done.
  - intros j cur Hj ->.
    destruct (lookup_lt_is_Some_2 src j) as [x Hx]; [lia|].
    destruct (lookup_lt_is_Some_2 cur0 j) as [w Hw]; [lia|].
    rewrite (at_Some _ _ _
      (lookup_rewritten_prefix _ src cur0 j _ Hw ltac:(lia))).
    cbn [mbind outcome_bind]. rewrite (at_Some _ _ _ Hx).
    cbn [mbind outcome_bind].
    eexists. split; [done|].
    exact (insert_take_drop Weight.Make src cur0 j x Hx ltac:(lia)).
  - subst s'. rewrite skipn_all2 by lia. by rewrite app_nil_r.
Qed.

Section DenseCodec.
Context {stream : Type}
        (codec : Codec stream DenseMultinomialPerceptron_pb.t).

Lemma Dense_Read_run (istrm : stream)
    (pb : DenseMultinomialPerceptron_pb.t) :
  ParseFromIstream codec istrm = Some pb → Dense_pb_wf pb →
  DenseMultinomialPerceptron.Read codec istrm
  = Ok (Some (DenseMultinomialPerceptron.Make
                (row_of_pb (DenseMultinomialPerceptron_pb.inner_size pb)
                   <$> DenseMultinomialPerceptron_pb.table pb)
                (DenseMultinomialPerceptron_pb.inner_size pb))).
Proof.
  destruct pb as [meta n T]. unfold Dense_pb_wf. simpl. intros Hparse Hwf.
  unfold DenseMultinomialPerceptron.Read. rewrite Hparse.
  unfold DenseMultinomialPerceptron.Base,
    DenseMultinomialPerceptron_pb.table_size, DenseTable.make.
  cbn [DenseMultinomialPerceptron_pb.table
       DenseMultinomialPerceptron_pb.inner_size
       DenseMultinomialPerceptron.table_
       DenseMultinomialPerceptron.inner_size_].
  set (tbl0 := replicate (length T) (replicate n Weight.zero)).
  edestruct (for_loop_inv
    (λ i (s : list (list Weight.t)),
       s = (row_of_pb n <$> take i T) ++ drop i tbl0))
    as (s' & Hrun & Hs); [| |rewrite Hrun].
  - done.
  - intros i tbl Hi ->.
    destruct (lookup_lt_is_Some_2 T i Hi) as [inner Hinner].
    pose proof (Forall_lookup_1 _ _ _ _ Hwf Hinner) as Hlen.
    assert (tbl0 !! i = Some (replicate n Weight.zero)) as Hzero.
    { unfold tbl0. by apply lookup_replicate_2. }
    rewrite (at_Some _ _ _
      (lookup_rewritten_prefix _ T tbl0 i _ Hzero ltac:(lia))).
    cbn [mbind outcome_bind]. rewrite (at_Some _ _ _ Hinner).
    cbn [mbind outcome_bind].
    rewrite (read_inner_loop n _ (DenseInnerTable_pb.table inner));
      [|by rewrite length_replicate|done].
    cbn [mbind outcome_bind].
    eexists. split; [done|].
    apply (insert_take_drop (row_of_pb n) T tbl0 i inner Hinner).
    unfold tbl0. by rewrite length_replicate.
  - subst s'. cbn [mbind outcome_bind].
    rewrite firstn_all2, skipn_all2
      by (unfold tbl0; rewrite ?length_replicate; lia).
    by rewrite app_nil_r.
Qed.

Lemma row_of_pb_row_pb (n : nat) (row : list Weight.t) :
  length row = n → row_of_pb n (row_pb row) = row.
Proof.
  intros Hlen. unfold row_of_pb, row_pb. simpl.
  rewrite firstn_all2 by (rewrite length_fmap; lia).
  rewrite <-list_fmap_compose.
  rewrite <-(list_fmap_id row) at 2. apply list_fmap_ext.
  by intros _ [x] _.
Qed.

(** Reading back what [Write] wrote gives the model written. *)
Lemma Dense_Read_Write (m : DenseMultinomialPerceptron.t)
    (metadata : string) (s : stream) :
  lawful codec → DenseMultinomialPerceptron.wf m →
  DenseMultinomialPerceptron.Write codec m metadata = Some s →
  DenseMultinomialPerceptron.Read codec s = Ok (Some m)
  ∧ DenseMultinomialPerceptron_pb.metadata
      <$> ParseFromIstream codec s = Some metadata.
Proof.
  intros Hlaw Hwf Hwrite. unfold DenseMultinomialPerceptron.Write in Hwrite.
  apply Hlaw in Hwrite. rewrite Dense_Write_pb_eq in Hwrite.
  split; [|by rewrite Hwrite].
  rewrite (Dense_Read_run _ _ Hwrite).
  - destruct m as [T n]. simpl in *. do 3 f_equal.
    rewrite <-list_fmap_compose. rewrite <-(list_fmap_id T) at 2.
    apply list_fmap_ext. intros i row Hrow. simpl.
    apply row_of_pb_row_pb.
    by apply (Forall_lookup_1 _ _ _ _ Hwf Hrow).
  - unfold Dense_pb_wf. simpl. apply Forall_fmap.
    eapply Forall_impl; [exact Hwf|]. intros row Hrow. simpl.
    rewrite length_fmap. unfold DenseMultinomialPerceptron.inner_size_ in *.
    destruct m. simpl in *. lia.
Qed.
End DenseCodec.

(** * Sparse/sparse: the loops in closed form *)

Lemma mutable_fresh {A : Type} (tbl : gmap string A) (key : string)
    (fresh : A) :
  tbl !! key = None → SparseTable.mutable tbl key fresh = fresh.
Proof. unfold SparseTable.mutable. by intros ->. Qed.

Lemma string_empty_true (s : string) : string_empty s = true ↔ s = "".
Proof. unfold string_empty. apply bool_decide_eq_true. Qed.

Lemma string_empty_false (s : string) : string_empty s = false ↔ s ≠ "".
Proof. unfold string_empty. apply bool_decide_eq_false. Qed.

Lemma drop_reserved_insert {A : Type} (inner : gmap string A)
    (label : string) (x : A) :
  drop_reserved (<[label := x]> inner)
  = if string_empty label then drop_reserved (delete label inner)
    else <[label := x]> (drop_reserved inner).
Proof.
  unfold drop_reserved. rewrite map_filter_insert.
  destruct (string_empty label) eqn:He.
  - apply string_empty_true in He. by rewrite decide_False by (by intros ?).
  - apply string_empty_false in He. by rewrite decide_True.
Qed.

Lemma drop_reserved_lookup {A : Type} (inner : gmap string A)
    (label : string) :
  drop_reserved inner !! label
  = if string_empty label then None else inner !! label.
Proof.
  unfold drop_reserved. destruct (string_empty label) eqn:He.
  - apply string_empty_true in He. subst label.
    apply map_lookup_filter_None. right. intros x _ Hreal. by apply Hreal.
  - apply string_empty_false in He. apply option_eq. intros x.
    rewrite map_lookup_filter_Some. unfold real_label. simpl. tauto.
Qed.

(** The inner loop of [Write], lines 167-171. *)
Lemma Sparse_Write_inner (inner : gmap string Weight.t) :
  for_each inner
    (λ label w inner_pb,
       if string_empty label then inner_pb
       else SparseInnerTable_pb.set_table inner_pb label (Weight.Get w))
    SparseInnerTable_pb.empty
  = sparse_inner_pb inner.
Proof.
  unfold for_each, sparse_inner_pb.
  apply (map_fold_weak_ind (λ r m,
    r = SparseInnerTable_pb.Make (Weight.Get <$> drop_reserved m))).
  - unfold drop_reserved. by rewrite map_filter_empty, fmap_empty.
  - intros label w m r Hnone ->. rewrite drop_reserved_insert.
    destruct (string_empty label) eqn:He.
    + by rewrite delete_id.
    + unfold SparseInnerTable_pb.set_table. simpl. by rewrite fmap_insert.
Qed.

Lemma Sparse_Write_pb_eq (m : SparseMultinomialPerceptron.t)
    (metadata : string) :
  SparseMultinomialPerceptron.Write_pb m metadata
  = SparseMultinomialPerceptron_pb.Make metadata
      (SparseMultinomialPerceptron.inner_size_ m)
      (sparse_inner_pb <$> SparseMultinomialPerceptron.table_ m).
Proof.
  unfold SparseMultinomialPerceptron.Write_pb, for_each.
  apply (map_fold_weak_ind (λ r T,
    r = SparseMultinomialPerceptron_pb.Make metadata
          (SparseMultinomialPerceptron.inner_size_ m)
          (sparse_inner_pb <$> T))).
  - by rewrite fmap_empty.
  - intros key inner T r Hnone ->. simpl.
    rewrite lookup_fmap, Hnone. simpl.
    fold (for_each inner
      (λ label w inner_pb,
         if string_empty label then inner_pb
         else SparseInnerTable_pb.set_table inner_pb label (Weight.Get w))
      SparseInnerTable_pb.empty).
    rewrite Sparse_Write_inner.
    unfold SparseMultinomialPerceptron_pb.set_table. simpl.
    by rewrite fmap_insert.
Qed.

(** The inner loop of [Read], lines 151-153. *)
Lemma Sparse_Read_inner (inner_pb : gmap string Qc) :
  for_each inner_pb
    (λ label x inner_table,
       let w := SparseTable.mutable inner_table label Weight.zero in
       <[label := Weight.Set_ w x]> inner_table)
    (SparseTable.make 0)
  = Weight.Make <$> inner_pb.
Proof.
  unfold for_each.
  apply (map_fold_weak_ind (λ r m, r = Weight.Make <$> m)).
  - unfold SparseTable.make. by rewrite fmap_empty.
  - intros label x m r Hnone ->. simpl. by rewrite fmap_insert.
Qed.

Section SparseCodec.
Context {stream : Type}
        (codec : Codec stream SparseMultinomialPerceptron_pb.t).

Lemma Sparse_Read_run (istrm : stream)
    (pb : SparseMultinomialPerceptron_pb.t) :
  ParseFromIstream codec istrm = Some pb →
  SparseMultinomialPerceptron.Read codec istrm
  = Some (SparseMultinomialPerceptron.Make
            (sparse_inner_of_pb
               <$> SparseMultinomialPerceptron_pb.table pb)
            (SparseMultinomialPerceptron_pb.inner_size pb)).
Proof.
  intros Hparse. unfold SparseMultinomialPerceptron.Read.
  rewrite Hparse. cbn zeta. f_equal. f_equal.
  unfold for_each at 1.
  set (T := SparseMultinomialPerceptron_pb.table pb).
  cut (T ⊆ T → map_fold
    (λ key (_ : SparseInnerTable_pb.t) tbl,
       <[key := for_each
                  (SparseInnerTable_pb.table
                     (default SparseInnerTable_pb.empty (T !! key)))
                  (λ label x inner_table,
                     <[label := Weight.Set_
                                  (SparseTable.mutable inner_table label
                                     Weight.zero) x]> inner_table)
                  (SparseTable.mutable tbl key
                     (SparseMultinomialPerceptron.fresh_inner
                        (SparseMultinomialPerceptron.InnerSize
                           (SparseMultinomialPerceptron.Base
                              (SparseMultinomialPerceptron_pb.table_size pb)
                              (SparseMultinomialPerceptron_pb.inner_size
                                 pb)))))]> tbl)
    (SparseMultinomialPerceptron.table_
       (SparseMultinomialPerceptron.Base
          (SparseMultinomialPerceptron_pb.table_size pb)
          (SparseMultinomialPerceptron_pb.inner_size pb))) T
    = sparse_inner_of_pb <$> T); [by auto|].
  generalize T at 1 4 5 as M.
  apply (map_fold_weak_ind (λ r M, M ⊆ T → r = sparse_inner_of_pb <$> M)).
  - intros _. by rewrite fmap_empty.
  - intros key inner M r Hnone IH Hsub.
    assert (T !! key = Some inner) as HT.
    { eapply lookup_weaken; [|exact Hsub]. apply lookup_insert_eq. }
    rewrite IH by (etrans; [by apply insert_subseteq|exact Hsub]).
    rewrite HT. unfold SparseTable.mutable at 2.
    rewrite lookup_fmap, Hnone. simpl.
    rewrite fmap_insert. f_equal.
    apply (Sparse_Read_inner (SparseInnerTable_pb.table inner)).
Qed.
End SparseCodec.

(** The inner loop of the freezing constructor, lines 132-136. *)
Lemma Sparse_freeze_inner (time : nat)
    (inner : gmap string AveragedWeight.t) :
  for_each inner
    (λ label cell '(ref, inner),
       if string_empty label then (ref, inner)
       else
         let '(x, cell') := AveragedWeight.GetAverage cell time in
         let w := SparseTable.mutable ref label Weight.zero in
         (<[label := Weight.Set_ w x]> ref, <[label := cell']> inner))
    (SparseTable.make 0, inner)
  = (frozen_inner time inner, freshened_inner time inner).
Proof.
  unfold for_each, frozen_inner, freshened_inner.
  apply (map_fold_weak_ind (λ r m,
    r = (frozen time <$> drop_reserved m,
         (freshened time <$> drop_reserved m) ∪ inner))).
  - unfold drop_reserved, SparseTable.make.
    by rewrite map_filter_empty, !fmap_empty, (left_id_L ∅ (∪)).
  - intros label cell m r Hnone ->. rewrite drop_reserved_insert.
    destruct (string_empty label) eqn:He.
    + by rewrite delete_id.
    + rewrite !fmap_insert, <-insert_union_l. unfold frozen, freshened.
      by destruct (AveragedWeight.GetAverage cell time) as [x cell'].
Qed.

Lemma Sparse_freeze_run (avg : SparseMultinomialAveragedPerceptron.t) :
  SparseMultinomialPerceptron.MultinomialPerceptronTpl avg
  = (SparseMultinomialPerceptron.Make
       (frozen_inner (SparseMultinomialAveragedPerceptron.time_ avg)
          <$> SparseMultinomialAveragedPerceptron.table_ avg)
       (SparseMultinomialAveragedPerceptron.inner_size_ avg),
     SparseMultinomialAveragedPerceptron.Make
       (freshened_inner (SparseMultinomialAveragedPerceptron.time_ avg)
          <$> SparseMultinomialAveragedPerceptron.table_ avg)
       (SparseMultinomialAveragedPerceptron.inner_size_ avg)
       (SparseMultinomialAveragedPerceptron.time_ avg)).
Proof.
  destruct avg as [T n time].
  unfold SparseMultinomialPerceptron.MultinomialPerceptronTpl.
  cbn [SparseMultinomialAveragedPerceptron.table_
       SparseMultinomialAveragedPerceptron.inner_size_
       SparseMultinomialAveragedPerceptron.time_
       SparseMultinomialAveragedPerceptron.Time
       SparseMultinomialAveragedPerceptron.InnerSize
       SparseMultinomialPerceptron.Base
       SparseMultinomialPerceptron.table_
       SparseMultinomialPerceptron.inner_size_].
  unfold for_each at 1.
  match goal with
  | |- (let '(_, _) := map_fold ?f ?b T in _) = _ =>
      assert (map_fold f b T
              = (frozen_inner time <$> T,
                 (freshened_inner time <$> T) ∪ T)) as ->
  end.
  { apply (map_fold_weak_ind (λ r M,
      r = (frozen_inner time <$> M, (freshened_inner time <$> M) ∪ T))).
    - unfold SparseTable.make. by rewrite !fmap_empty, (left_id_L ∅ (∪)).
    - intros key inner M r Hnone ->.
      rewrite (mutable_fresh (frozen_inner time <$> M))
        by (by rewrite lookup_fmap, Hnone).
      pose proof (Sparse_freeze_inner time inner) as Hinner.
      cbv zeta in Hinner.
      unfold SparseMultinomialPerceptron.fresh_inner, SparseTable.make.
      unfold SparseTable.make in Hinner. rewrite Hinner.
      by rewrite !fmap_insert, <-insert_union_l. }
  f_equal. f_equal. apply map_eq. intros key.
  rewrite lookup_union, !lookup_fmap.
  by destruct (T !! key).
Qed.

(** * Sparse/dense: the loops in closed form *)

Lemma for_each_ok_inv {A St : Type} (M : gmap string A)
    (P : gmap string A → St → Prop)
    (body : string → A → St → outcome St) (s : St) :
  P ∅ s →
  (∀ key x m r, m !! key = None → M !! key = Some x → P m r →
                ∃ r', body key x r = Ok r' ∧ P (<[key := x]> m) r') →
  ∃ r, for_each_ok M body s = Ok r ∧ P M r.
Proof.
  intros Hinit Hstep. unfold for_each_ok, for_each.
  cut (M ⊆ M → ∃ r,
         map_fold (λ key x acc, s' ← acc; body key x s') (Ok s) M = Ok r
         ∧ P M r); [by auto|].
  generalize M at 1 3 4 as m.
  apply (map_fold_weak_ind (λ acc m,
    m ⊆ M → ∃ r, acc = Ok r ∧ P m r)).
  - intros _. by exists s.
  - intros key x m acc Hnone IH Hsub.
    assert (M !! key = Some x) as HM.
    { eapply lookup_weaken; [|exact Hsub]. apply lookup_insert_eq. }
    destruct IH as (r & -> & Hr).
    { etrans; [by apply insert_subseteq|exact Hsub]. }
    cbn [mbind outcome_bind]. by apply Hstep.
Qed.

Lemma SparseDense_freeze_run
    (avg : SparseDenseMultinomialAveragedPerceptron.t) :
  SparseDenseMultinomialAveragedPerceptron.wf avg →
  SparseDenseMultinomialPerceptron.MultinomialPerceptronTpl avg
  = Ok (SparseDenseMultinomialPerceptron.Make
          (frozen_row (SparseDenseMultinomialAveragedPerceptron.time_ avg)
             <$> SparseDenseMultinomialAveragedPerceptron.table_ avg)
          (SparseDenseMultinomialAveragedPerceptron.inner_size_ avg),
        SparseDenseMultinomialAveragedPerceptron.Make
          (freshened_row (SparseDenseMultinomialAveragedPerceptron.time_ avg)
             <$> SparseDenseMultinomialAveragedPerceptron.table_ avg)
          (SparseDenseMultinomialAveragedPerceptron.inner_size_ avg)
          (SparseDenseMultinomialAveragedPerceptron.time_ avg)).
Proof.
  destruct avg as [T n time].
  unfold SparseDenseMultinomialAveragedPerceptron.wf. simpl. intros Hwf.
  unfold SparseDenseMultinomialPerceptron.MultinomialPerceptronTpl.
  cbn [SparseDenseMultinomialAveragedPerceptron.table_
       SparseDenseMultinomialAveragedPerceptron.inner_size_
       SparseDenseMultinomialAveragedPerceptron.time_
       SparseDenseMultinomialAveragedPerceptron.Time
       SparseDenseMultinomialAveragedPerceptron.InnerSize
       SparseDenseMultinomialPerceptron.Base
       SparseDenseMultinomialPerceptron.InnerSize
       SparseDenseMultinomialPerceptron.table_
       SparseDenseMultinomialPerceptron.inner_size_].
  edestruct (for_each_ok_inv T
    (λ M (s : gmap string (list Weight.t)
              * gmap string (list AveragedWeight.t)),
       s = (frozen_row time <$> M, (freshened_row time <$> M) ∪ T)))
    as (s' & Hrun & Hs); [| |rewrite Hrun].
  - unfold SparseTable.make. by rewrite !fmap_empty, (left_id_L ∅ (∪)).
  - intros key row M r Hnone HT ->.
    rewrite (mutable_fresh (frozen_row time <$> M))
      by (by rewrite lookup_fmap, Hnone).
    rewrite (freeze_inner_loop time n _ row);
      [|by unfold SparseDenseMultinomialPerceptron.fresh_inner,
             DenseTable.make; rewrite length_replicate
       |by apply (Hwf key row HT)].
    cbn [mbind outcome_bind]. eexists. split; [done|].
    by rewrite !fmap_insert, <-insert_union_l.
  - subst s'. cbn [mbind outcome_bind]. do 3 f_equal.
    apply map_eq. intros key. rewrite lookup_union, !lookup_fmap.
    by destruct (T !! key).
Qed.

(** The inner loop of [Write], lines 117-118. *)
Lemma write_inner_loop (n : nat) (row : list Weight.t)
    (inner0 : DenseInnerTable_pb.t) :
  n ≤ length row →
  for_loop n
    (λ j inner,
       w ← DenseTable.at_ row j;
       Ok (DenseInnerTable_pb.add_table inner (Weight.Get w)))
    inner0
  = Ok (DenseInnerTable_pb.Make
          (DenseInnerTable_pb.table inner0 ++ (Weight.Get <$> take n row))).
Proof.
  intros Hn.
  edestruct (for_loop_inv
    (λ j (s : DenseInnerTable_pb.t),
       s = DenseInnerTable_pb.Make
             (DenseInnerTable_pb.table inner0
              ++ (Weight.Get <$> take j row))))
    as (s' & Hrun & Hs); [| |rewrite Hrun].
  - destruct inner0. simpl. by rewrite app_nil_r.
  - intros j inner Hj ->.
    destruct (lookup_lt_is_Some_2 row j) as [w Hw]; [lia|].
    rewrite (at_Some _ _ _ Hw). cbn [mbind outcome_bind].
    eexists. split; [done|]. unfold DenseInnerTable_pb.add_table. simpl.
    by rewrite (take_S_r _ _ _ Hw), fmap_app, app_assoc.
  - by subst s'.
Qed.

Lemma SparseDense_Write_pb_eq (m : SparseDenseMultinomialPerceptron.t)
    (metadata : string) :
  SparseDenseMultinomialPerceptron.wf m →
  SparseDenseMultinomialPerceptron.Write_pb m metadata
  = Ok (SparseDenseMultinomialPerceptron_pb.Make metadata
          (SparseDenseMultinomialPerceptron.inner_size_ m)
          (row_pb <$> SparseDenseMultinomialPerceptron.table_ m)).
Proof.
  destruct m as [T n]. unfold SparseDenseMultinomialPerceptron.wf. simpl.
  intros Hwf. unfold SparseDenseMultinomialPerceptron.Write_pb.
  cbn [SparseDenseMultinomialPerceptron.InnerSize
       SparseDenseMultinomialPerceptron.table_
       SparseDenseMultinomialPerceptron.inner_size_].
  edestruct (for_each_ok_inv T
    (λ M (s : SparseDenseMultinomialPerceptron_pb.t),
       s = SparseDenseMultinomialPerceptron_pb.Make metadata n
             (row_pb <$> M)))
    as (s' & Hrun & Hs); [| |rewrite Hrun].
  - by rewrite fmap_empty.
  - intros key row M r Hnone HT ->. simpl.
    rewrite lookup_fmap, Hnone. simpl.
    pose proof (Hwf key row HT) as Hlen. simpl in Hlen.
    rewrite (write_inner_loop n row) by lia.
    cbn [mbind outcome_bind]. eexists. split; [done|].
    unfold SparseDenseMultinomialPerceptron_pb.set_table. simpl.
    rewrite fmap_insert. do 2 f_equal. unfold row_pb.
    by rewrite firstn_all2 by lia.
  - by subst s'.
Qed.

Section SparseDenseCodec.
Context {stream : Type}
        (codec : Codec stream SparseDenseMultinomialPerceptron_pb.t).

Lemma SparseDense_Read_run (istrm : stream)
    (pb : SparseDenseMultinomialPerceptron_pb.t) :
  ParseFromIstream codec istrm = Some pb → SparseDense_pb_wf pb →
  SparseDenseMultinomialPerceptron.Read codec istrm
  = Ok (Some (SparseDenseMultinomialPerceptron.Make
                (row_of_pb
                   (SparseDenseMultinomialPerceptron_pb.inner_size pb)
                   <$> SparseDenseMultinomialPerceptron_pb.table pb)
                (SparseDenseMultinomialPerceptron_pb.inner_size pb))).
Proof.
  destruct pb as [meta n T]. unfold SparseDense_pb_wf. simpl.
  intros Hparse Hwf.
  unfold SparseDenseMultinomialPerceptron.Read. rewrite Hparse.
  cbn [SparseDenseMultinomialPerceptron_pb.table
       SparseDenseMultinomialPerceptron_pb.inner_size
       SparseDenseMultinomialPerceptron.Base
       SparseDenseMultinomialPerceptron.InnerSize
       SparseDenseMultinomialPerceptron.table_
       SparseDenseMultinomialPerceptron.inner_size_].
  edestruct (for_each_ok_inv T
    (λ M (s : gmap string (list Weight.t)), s = row_of_pb n <$> M))
    as (s' & Hrun & Hs); [| |rewrite Hrun].
  - unfold SparseTable.make. by rewrite fmap_empty.
  - intros key inner M r Hnone HT ->.
    rewrite (mutable_fresh (row_of_pb n <$> M))
      by (by rewrite lookup_fmap, Hnone).
    rewrite HT. cbn [default].
    rewrite (read_inner_loop n _ (DenseInnerTable_pb.table inner));
      [|by unfold SparseDenseMultinomialPerceptron.fresh_inner,
             DenseTable.make; rewrite length_replicate
       |by apply (Hwf key inner HT)].
    cbn [mbind outcome_bind]. eexists. split; [done|].
    by rewrite fmap_insert.
  - by subst s'.
Qed.

(** Reading back what [Write] wrote gives the model written. *)
Lemma SparseDense_Read_Write (m : SparseDenseMultinomialPerceptron.t)
    (metadata : string) (s : stream) :
  lawful codec → SparseDenseMultinomialPerceptron.wf m →
  SparseDenseMultinomialPerceptron.Write codec m metadata = Ok (Some s) →
  SparseDenseMultinomialPerceptron.Read codec s = Ok (Some m)
  ∧ SparseDenseMultinomialPerceptron_pb.metadata
      <$> ParseFromIstream codec s = Some metadata.
Proof.
  intros Hlaw Hwf Hwrite.
  unfold SparseDenseMultinomialPerceptron.Write in Hwrite.
  rewrite (SparseDense_Write_pb_eq m metadata Hwf) in Hwrite.
  cbn [mbind outcome_bind] in Hwrite.
  injection Hwrite as Hwrite. apply Hlaw in Hwrite.
  split; [|by rewrite Hwrite].
  rewrite (SparseDense_Read_run _ _ Hwrite).
  - destruct m as [T n]. simpl in *. do 3 f_equal.
    rewrite <-map_fmap_compose. rewrite <-(map_fmap_id T) at 2.
    apply map_fmap_ext. intros key row Hrow. simpl.
    apply row_of_pb_row_pb. by apply (Hwf key row Hrow).
  - unfold SparseDense_pb_wf. simpl. apply map_Forall_fmap.
    intros key row Hrow. simpl. rewrite length_fmap.
    pose proof (Hwf key row Hrow) as Hlen. simpl in Hlen. lia.
Qed.
End SparseDenseCodec.

Section SparseRoundTrip.
Context {stream : Type}
        (codec : Codec stream SparseMultinomialPerceptron_pb.t).

(** Reading back what [Write] wrote gives the model written, less the
    cells under the reserved label. *)
Lemma Sparse_Read_Write (m : SparseMultinomialPerceptron.t)
    (metadata : string) (s : stream) :
  lawful codec →
  SparseMultinomialPerceptron.Write codec m metadata = Some s →
  SparseMultinomialPerceptron.Read codec s
  = Some (SparseMultinomialPerceptron.Make
            (drop_reserved <$> SparseMultinomialPerceptron.table_ m)
            (SparseMultinomialPerceptron.inner_size_ m))
  ∧ SparseMultinomialPerceptron_pb.metadata
      <$> ParseFromIstream codec s = Some metadata.
Proof.
  intros Hlaw Hwrite. unfold SparseMultinomialPerceptron.Write in Hwrite.
  apply Hlaw in Hwrite. rewrite Sparse_Write_pb_eq in Hwrite.
  split; [|by rewrite Hwrite].
  rewrite (Sparse_Read_run _ _ _ Hwrite). simpl. do 2 f_equal.
  rewrite <-map_fmap_compose. apply map_fmap_ext.
  intros key inner _. unfold sparse_inner_of_pb, sparse_inner_pb. simpl.
  rewrite <-map_fmap_compose. rewrite <-(map_fmap_id (drop_reserved inner)) at 2.
  apply map_fmap_ext. by intros label [x] _.
Qed.
End SparseRoundTrip.

(** * The averaged cell *)

Section Averaging.
Local Open Scope Qc_scope.

Lemma sum_over_ext (f g : nat → Qc) (start n : nat) :
  (∀ s, (start ≤ s < start + n)%nat → f s = g s) →
  sum_over f start n = sum_over g start n.
Proof.
  revert start. induction n as [|n IH]; intros start Hfg; simpl; [done|].
  rewrite Hfg by lia. f_equal. apply IH. intros s ?. apply Hfg. lia.
Qed.

Lemma sum_over_const (c : Qc) (start n : nat) :
  sum_over (λ _, c) start n = Qc_of_Z (Z.of_nat n) * c.
Proof.
  revert start. induction n as [|n IH]; intros start; simpl sum_over.
  - change (Z.of_nat 0) with 0%Z. rewrite Z2Qc_inj_0. ring.
  - rewrite IH. rewrite Nat2Z.inj_succ, <-Z.add_1_r, Z2Qc_inj_add.
    rewrite Z2Qc_inj_1. ring.
Qed.

Lemma sum_over_app (f : nat → Qc) (start n1 n2 : nat) :
  sum_over f start (n1 + n2)
  = sum_over f start n1 + sum_over f (start + n1) n2.
Proof.
  revert start. induction n1 as [|n1 IH]; intros start; simpl.
  - rewrite Nat.add_0_r. ring.
  - rewrite IH. replace (S start + n1)%nat with (start + S n1)%nat by lia.
    ring.
Qed.

Lemma chain_le (t0 : nat) (us : list (Qc * nat)) (T : nat) :
  chain t0 us T → (t0 ≤ T)%nat.
Proof.
  revert t0. induction us as [|u us IH]; intros t0; simpl; [done|].
  intros [H1 H2]. apply IH in H2. lia.
Qed.

Lemma chain_Forall (t0 : nat) (us : list (Qc * nat)) (T : nat) :
  chain t0 us T → Forall (λ u, (t0 ≤ u.2)%nat) us.
Proof.
  revert t0. induction us as [|u us IH]; intros t0; simpl; [done|].
  intros [H1 H2]. constructor; [done|].
  eapply Forall_impl; [exact (IH _ H2)|]. simpl. intros; lia.
Qed.

Lemma weight_at_before (us : list (Qc * nat)) (s : nat) :
  Forall (λ u, (s < u.2)%nat) us → weight_at us s = 0.
Proof.
  induction 1 as [|u us Hu _ IH]; simpl; [done|].
  by rewrite decide_False by lia.
Qed.

(** Between updates the cached sum lags behind; freshening to any later
    clock value recovers the sum of the true weight over all steps. *)
Lemma freshen_apply_updates (w : AveragedWeight.t)
    (us : list (Qc * nat)) (T : nat) :
  chain (AveragedWeight.time_ w) us T →
  AveragedWeight.aweight_ (AveragedWeight.freshen (apply_updates w us) T)
  = AveragedWeight.aweight_ w
    + sum_over (λ s, AveragedWeight.weight_ w + weight_at us s)
        (AveragedWeight.time_ w) (T - AveragedWeight.time_ w).
Proof.
  revert w. induction us as [|[d t] us IH]; intros [x a t0].
  - simpl. intros Hle. rewrite (sum_over_ext _ (λ _, x)) by (intros; ring).
    rewrite sum_over_const. by rewrite Nat2Z.inj_sub.
  - intros [Ht0 Hchain]. pose proof (chain_le _ _ _ Hchain) as HtT.
    change (apply_updates _ ((d, t) :: us))
      with (apply_updates
              (AveragedWeight.update (AveragedWeight.Make x a t0) d t) us).
    rewrite IH by done. simpl in *.
    replace (T - t0)%nat with ((t - t0) + (T - t))%nat by lia.
    rewrite sum_over_app.
    replace (t0 + (t - t0))%nat with t by lia.
    rewrite (sum_over_ext _ (λ _, x) t0).
    + rewrite sum_over_const, Nat2Z.inj_sub by done.
      rewrite <-Qcplus_assoc. f_equal. f_equal.
      apply sum_over_ext. intros s Hs.
      rewrite decide_True by lia. ring.
    + intros s Hs. rewrite decide_False by lia.
      rewrite weight_at_before; [ring|].
      eapply Forall_impl; [exact (chain_Forall _ _ _ Hchain)|].
      simpl. intros; lia.
Qed.

Lemma increasing_chain (t0 : nat) (us : list (Qc * nat)) (T : nat) :
  increasing (us.*2) → Forall (λ u, (u.2 < T)%nat) us →
  (t0 ≤ T)%nat → (∀ u, head us = Some u → (t0 ≤ u.2)%nat) →
  chain t0 us T.
Proof.
  revert t0. induction us as [|u us IH]; intros t0 Hinc Hall Ht0 Hhd.
  - done.
  - simpl. split; [by apply Hhd|].
    inversion_clear Hall as [|?? Hu Hall'].
    apply IH; [|done|lia|].
    + destruct us; [done|]. simpl in Hinc. apply Hinc.
    + intros u' Hu'. destruct us as [|u'' us]; [done|].
      simpl in Hu'. injection Hu' as ->. simpl in Hinc. lia.
Qed.
End Averaging.

(** * The argmax picks one entry, whatever the order of the entries *)

Section ArgMaxFacts.
Context {L : Type} (lt : L → L → Prop).
Context `{!RelDecision lt, !StrictOrder lt, !Trichotomy lt}.
Implicit Types (e b r x : L * Qc) (es : list (L * Qc)).






Lemma ArgMax_nil : ArgMax lt [] = None.
Proof. done. Qed.



End ArgMaxFacts.

(** * Dense averaged model: scoring and prediction *)

Section DensePredict.
Import DenseMultinomialAveragedPerceptron.
Implicit Types (m : t) (features : list nat).

#[local] Instance nat_lt_trichotomy : Trichotomy Nat.lt.
Proof. intros x y. unfold Nat.lt. lia. Qed.




End DensePredict.

(** * Dense averaged model: training *)

Section DenseTrain.
Import DenseMultinomialAveragedPerceptron.
Context (n gold predicted time : nat).
Implicit Types (tbl : list (list AveragedWeight.t)) (features : list nat).





End DenseTrain.

(** * Cells of the closed forms *)

Lemma dense_cell_fmap {A B : Type} (f : A → B) (g : list A → list B)
    (tbl : list (list A)) (i j : nat) :
  (∀ row, g row = f <$> row) →
  dense_cell (g <$> tbl) i j = f <$> dense_cell tbl i j.
Proof.
  intros Hg. unfold dense_cell. rewrite list_lookup_fmap.
  destruct (tbl !! i) as [row|]; simpl; [|done].
  by rewrite Hg, list_lookup_fmap.
Qed.

Lemma sparse_dense_cell_fmap {A B : Type} (f : A → B)
    (g : list A → list B) (tbl : gmap string (list A))
    (key : string) (j : nat) :
  (∀ row, g row = f <$> row) →
  sparse_dense_cell (g <$> tbl) key j = f <$> sparse_dense_cell tbl key j.
Proof.
  intros Hg. unfold sparse_dense_cell. rewrite lookup_fmap.
  destruct (tbl !! key) as [row|]; simpl; [|done].
  by rewrite Hg, list_lookup_fmap.
Qed.

Lemma sparse_cell_frozen (time : nat)
    (tbl : gmap string (gmap string AveragedWeight.t))
    (key label : string) :
  sparse_cell (frozen_inner time <$> tbl) key label
  = if string_empty label then None
    else frozen time <$> sparse_cell tbl key label.
Proof.
  unfold sparse_cell, frozen_inner. rewrite lookup_fmap.
  destruct (tbl !! key) as [inner|]; simpl.
  - rewrite lookup_fmap, drop_reserved_lookup.
    by destruct (string_empty label).
  - by destruct (string_empty label).
Qed.

Lemma sparse_cell_freshened (time : nat)
    (tbl : gmap string (gmap string AveragedWeight.t))
    (key label : string) :
  sparse_cell (freshened_inner time <$> tbl) key label
  = (if string_empty label then id else freshened time)
    <$> sparse_cell tbl key label.
Proof.
  unfold sparse_cell, freshened_inner. rewrite lookup_fmap.
  destruct (tbl !! key) as [inner|]; simpl; [|done].
  rewrite lookup_union, lookup_fmap, drop_reserved_lookup.
  destruct (string_empty label); destruct (inner !! label); done.
Qed.

Lemma sparse_cell_drop_reserved {A : Type}
    (tbl : gmap string (gmap string A)) (key label : string) :
  sparse_cell (drop_reserved <$> tbl) key label
  = if string_empty label then None else sparse_cell tbl key label.
Proof.
  unfold sparse_cell. rewrite lookup_fmap.
  destruct (tbl !! key) as [inner|]; simpl.
  - apply drop_reserved_lookup.
  - by destruct (string_empty label).
Qed.

Lemma Get_freshened (time : nat) (cell : AveragedWeight.t) :
  AveragedWeight.Get (freshened time cell) = AveragedWeight.Get cell.
Proof. done. Qed.

Lemma framed_lawful (Msg : Type) : lawful (framed Msg).
Proof. intros pb s. simpl. by intros [= <-]. Qed.

(** * Freezing *)

(** C2.  Freezing an averaged model builds an unaveraged model of the
    same outer and inner sizes; each of its cells holds [GetAverage], at
    the averaged model's clock, of the averaged cell at the same place.
    This holds for the dense, the sparse/dense and the fully sparse
    topology (whose frozen table has no cell under the reserved label). *)
Theorem freeze_takes_averages :
  (∀ avg : DenseMultinomialAveragedPerceptron.t,
     DenseMultinomialAveragedPerceptron.wf avg →
     ∃ m avg',
       DenseMultinomialPerceptron.MultinomialPerceptronTpl avg = Ok (m, avg')
       ∧ DenseMultinomialPerceptron.OuterSize m
         = DenseMultinomialAveragedPerceptron.OuterSize avg
       ∧ DenseMultinomialPerceptron.InnerSize m
         = DenseMultinomialAveragedPerceptron.InnerSize avg
       ∧ ∀ i j,
           Weight.Get <$> dense_cell (DenseMultinomialPerceptron.table_ m) i j
           = (λ cell,
                (AveragedWeight.GetAverage cell
                   (DenseMultinomialAveragedPerceptron.Time avg)).1)
             <$> dense_cell (DenseMultinomialAveragedPerceptron.table_ avg)
                   i j)
  ∧ (∀ avg : SparseDenseMultinomialAveragedPerceptron.t,
       SparseDenseMultinomialAveragedPerceptron.wf avg →
       ∃ m avg',
         SparseDenseMultinomialPerceptron.MultinomialPerceptronTpl avg
         = Ok (m, avg')
         ∧ SparseDenseMultinomialPerceptron.OuterSize m
           = SparseDenseMultinomialAveragedPerceptron.OuterSize avg
         ∧ SparseDenseMultinomialPerceptron.InnerSize m
           = SparseDenseMultinomialAveragedPerceptron.InnerSize avg
         ∧ ∀ key j,
             Weight.Get
               <$> sparse_dense_cell
                     (SparseDenseMultinomialPerceptron.table_ m) key j
             = (λ cell,
                  (AveragedWeight.GetAverage cell
                     (SparseDenseMultinomialAveragedPerceptron.Time avg)).1)
               <$> sparse_dense_cell
                     (SparseDenseMultinomialAveragedPerceptron.table_ avg)
                     key j)
  ∧ (∀ avg : SparseMultinomialAveragedPerceptron.t,
       let m := (SparseMultinomialPerceptron.MultinomialPerceptronTpl avg).1 in
       SparseMultinomialPerceptron.OuterSize m
       = SparseMultinomialAveragedPerceptron.OuterSize avg
       ∧ SparseMultinomialPerceptron.InnerSize m
         = SparseMultinomialAveragedPerceptron.InnerSize avg
       ∧ ∀ key label,
           Weight.Get
             <$> sparse_cell (SparseMultinomialPerceptron.table_ m) key label
           = if string_empty label then None
             else (λ cell,
                     (AveragedWeight.GetAverage cell
                        (SparseMultinomialAveragedPerceptron.Time avg)).1)
                  <$> sparse_cell
                        (SparseMultinomialAveragedPerceptron.table_ avg)
                        key label).
Proof.
  split; [|split].
  - intros avg Hwf. rewrite (Dense_freeze_run avg Hwf).
    eexists _, _. split; [done|].
    unfold DenseMultinomialPerceptron.OuterSize,
      DenseMultinomialAveragedPerceptron.OuterSize. simpl.
    split; [by rewrite length_fmap|]. split; [done|]. intros i j.
    rewrite (dense_cell_fmap (frozen _)) by done.
    by destruct (dense_cell _ i j).
  - intros avg Hwf. rewrite (SparseDense_freeze_run avg Hwf).
    eexists _, _. split; [done|].
    unfold SparseDenseMultinomialPerceptron.OuterSize,
      SparseDenseMultinomialAveragedPerceptron.OuterSize. simpl.
    split; [by rewrite map_size_fmap|]. split; [done|]. intros key j.
    rewrite (sparse_dense_cell_fmap (frozen _)) by done.
    by destruct (sparse_dense_cell _ key j).
  - intros avg. rewrite Sparse_freeze_run. simpl.
    unfold SparseMultinomialPerceptron.OuterSize,
      SparseMultinomialAveragedPerceptron.OuterSize. simpl.
    split; [by rewrite map_size_fmap|]. split; [done|]. intros key label.
    rewrite sparse_cell_frozen. destruct (string_empty label); [done|].
    by destruct (sparse_cell _ key label).
Qed.

Lemma freeze_takes_averages_witness :
  (∃ m avg',
     DenseMultinomialPerceptron.MultinomialPerceptronTpl
       sample_dense_averaged = Ok (m, avg')
     ∧ DenseMultinomialPerceptron.OuterSize m = 2
     ∧ DenseMultinomialPerceptron.InnerSize m = 2)
  ∧ (∃ m avg',
       SparseDenseMultinomialPerceptron.MultinomialPerceptronTpl
         sample_sparse_dense_averaged = Ok (m, avg')
       ∧ SparseDenseMultinomialPerceptron.OuterSize m = 1
       ∧ SparseDenseMultinomialPerceptron.InnerSize m = 2).
Proof.
  destruct freeze_takes_averages as (HD & HSD & _). split.
  - destruct (HD sample_dense_averaged) as (m & avg' & Hrun & Ho & Hi & _).
    + repeat constructor.
    + exists m, avg'. rewrite Ho, Hi. repeat split. exact Hrun.
  - destruct (HSD sample_sparse_dense_averaged)
      as (m & avg' & Hrun & Ho & Hi & _).
    + apply map_Forall_singleton. reflexivity.
    + exists m, avg'. rewrite Ho, Hi. repeat split. exact Hrun.
Defined.

(** C9.  Freezing leaves the averaged model's observable state alone:
    the clock, the number of labels and the true weight [Get] of every
    cell are what they were; only the cached sums and stamps that
    [GetAverage] freshens may differ. *)
Theorem freeze_preserves_true_weights :
  (∀ avg : DenseMultinomialAveragedPerceptron.t,
     DenseMultinomialAveragedPerceptron.wf avg →
     ∃ m avg',
       DenseMultinomialPerceptron.MultinomialPerceptronTpl avg = Ok (m, avg')
       ∧ DenseMultinomialAveragedPerceptron.Time avg'
         = DenseMultinomialAveragedPerceptron.Time avg
       ∧ DenseMultinomialAveragedPerceptron.InnerSize avg'
         = DenseMultinomialAveragedPerceptron.InnerSize avg
       ∧ ∀ i j,
           AveragedWeight.Get
             <$> dense_cell (DenseMultinomialAveragedPerceptron.table_ avg')
                   i j
           = AveragedWeight.Get
               <$> dense_cell (DenseMultinomialAveragedPerceptron.table_ avg)
                     i j)
  ∧ (∀ avg : SparseDenseMultinomialAveragedPerceptron.t,
       SparseDenseMultinomialAveragedPerceptron.wf avg →
       ∃ m avg',
         SparseDenseMultinomialPerceptron.MultinomialPerceptronTpl avg
         = Ok (m, avg')
         ∧ SparseDenseMultinomialAveragedPerceptron.Time avg'
           = SparseDenseMultinomialAveragedPerceptron.Time avg
         ∧ SparseDenseMultinomialAveragedPerceptron.InnerSize avg'
           = SparseDenseMultinomialAveragedPerceptron.InnerSize avg
         ∧ ∀ key j,
             AveragedWeight.Get
               <$> sparse_dense_cell
                     (SparseDenseMultinomialAveragedPerceptron.table_ avg')
                     key j
             = AveragedWeight.Get
                 <$> sparse_dense_cell
                       (SparseDenseMultinomialAveragedPerceptron.table_ avg)
                       key j)
  ∧ (∀ avg : SparseMultinomialAveragedPerceptron.t,
       let avg' :=
         (SparseMultinomialPerceptron.MultinomialPerceptronTpl avg).2 in
       SparseMultinomialAveragedPerceptron.Time avg'
       = SparseMultinomialAveragedPerceptron.Time avg
       ∧ SparseMultinomialAveragedPerceptron.InnerSize avg'
         = SparseMultinomialAveragedPerceptron.InnerSize avg
       ∧ ∀ key label,
           AveragedWeight.Get
             <$> sparse_cell
                   (SparseMultinomialAveragedPerceptron.table_ avg') key label
           = AveragedWeight.Get
               <$> sparse_cell
                     (SparseMultinomialAveragedPerceptron.table_ avg)
                     key label).
Proof.
  split; [|split].
  - intros avg Hwf. rewrite (Dense_freeze_run avg Hwf).
    eexists _, _. split; [done|]. split; [done|]. split; [done|].
    intros i j. simpl.
    rewrite (dense_cell_fmap (freshened _)) by done.
    by destruct (dense_cell _ i j).
  - intros avg Hwf. rewrite (SparseDense_freeze_run avg Hwf).
    eexists _, _. split; [done|]. split; [done|]. split; [done|].
    intros key j. simpl.
    rewrite (sparse_dense_cell_fmap (freshened _)) by done.
    by destruct (sparse_dense_cell _ key j).
  - intros avg. rewrite Sparse_freeze_run. simpl.
    split; [done|]. split; [done|]. intros key label.
    rewrite sparse_cell_freshened.
    by destruct (string_empty label), (sparse_cell _ key label).
Qed.

Lemma freeze_preserves_true_weights_witness :
  (∃ m avg',
     DenseMultinomialPerceptron.MultinomialPerceptronTpl
       sample_dense_averaged = Ok (m, avg')
     ∧ DenseMultinomialAveragedPerceptron.Time avg' = 4)
  ∧ (∃ m avg',
       SparseDenseMultinomialPerceptron.MultinomialPerceptronTpl
         sample_sparse_dense_averaged = Ok (m, avg')
       ∧ SparseDenseMultinomialAveragedPerceptron.Time avg' = 4).
Proof.
  destruct freeze_preserves_true_weights as (HD & HSD & _). split.
  - destruct (HD sample_dense_averaged) as (m & avg' & Hrun & Ht & _).
    + repeat constructor.
    + exists m, avg'. rewrite Ht. split; [exact Hrun|reflexivity].
  - destruct (HSD sample_sparse_dense_averaged)
      as (m & avg' & Hrun & Ht & _).
    + apply map_Forall_singleton. reflexivity.
    + exists m, avg'. rewrite Ht. split; [exact Hrun|reflexivity].
Defined.

(** C10.  The table of a frozen fully sparse model holds no cell under
    the reserved empty label, whatever the averaged table held. *)
Theorem freeze_skips_reserved_label
    (avg : SparseMultinomialAveragedPerceptron.t) (key : string)
    (inner : gmap string Weight.t) :
  SparseMultinomialPerceptron.table_
    (SparseMultinomialPerceptron.MultinomialPerceptronTpl avg).1 !! key
  = Some inner →
  inner !! "" = None.
Proof.
  rewrite Sparse_freeze_run. simpl. rewrite lookup_fmap.
  destruct (_ !! key) as [ainner|]; simpl; [|done]. intros [= <-].
  unfold frozen_inner. by rewrite lookup_fmap, drop_reserved_lookup.
Qed.

Lemma freeze_skips_reserved_label_witness :
  frozen_inner 4 {[ "NOUN" := sample_cell 1 3 3;
                    "" := sample_cell 5 0 0 ]} !! "" = None
  ∧ sparse_cell (SparseMultinomialAveragedPerceptron.table_
                   sample_sparse_averaged) "bias" ""
    = Some (sample_cell 5 0 0).
Proof.
  split.
  - apply (freeze_skips_reserved_label sample_sparse_averaged "bias").
    rewrite Sparse_freeze_run. reflexivity.
  - reflexivity.
Defined.

(** * Serialization *)

(** C7.  The message [Write] assembles for a fully sparse model has no
    entry under the reserved empty label in any inner table, whatever
    the in-memory table holds; hence neither has what a lawful decoder
    recovers from the written stream. *)
Theorem Write_omits_reserved_label :
  (∀ (m : SparseMultinomialPerceptron.t) (metadata key : string)
     (inner_pb : SparseInnerTable_pb.t),
     SparseMultinomialPerceptron_pb.table
       (SparseMultinomialPerceptron.Write_pb m metadata) !! key
     = Some inner_pb →
     SparseInnerTable_pb.table inner_pb !! "" = None)
  ∧ (∀ (stream : Type)
       (codec : Codec stream SparseMultinomialPerceptron_pb.t)
       (m : SparseMultinomialPerceptron.t) (metadata : string)
       (ostrm : stream),
       lawful codec →
       SparseMultinomialPerceptron.Write codec m metadata = Some ostrm →
       ∃ pb, ParseFromIstream codec ostrm = Some pb
             ∧ ∀ key inner_pb,
                 SparseMultinomialPerceptron_pb.table pb !! key
                 = Some inner_pb →
                 SparseInnerTable_pb.table inner_pb !! "" = None).
Proof.
  assert (∀ (m : SparseMultinomialPerceptron.t) (metadata key : string)
            (inner_pb : SparseInnerTable_pb.t),
            SparseMultinomialPerceptron_pb.table
              (SparseMultinomialPerceptron.Write_pb m metadata) !! key
            = Some inner_pb →
            SparseInnerTable_pb.table inner_pb !! "" = None) as Hpb.
  { intros m metadata key inner_pb. rewrite Sparse_Write_pb_eq. simpl.
    rewrite lookup_fmap.
    destruct (_ !! key) as [inner|]; simpl; [|done]. intros [= <-].
    unfold sparse_inner_pb. simpl.
    by rewrite lookup_fmap, drop_reserved_lookup. }
  split; [exact Hpb|].
  intros stream codec m metadata ostrm Hlaw Hwrite.
  exists (SparseMultinomialPerceptron.Write_pb m metadata).
  split; [by apply Hlaw|]. apply Hpb.
Qed.

Lemma Write_omits_reserved_label_witness :
  sparse_cell (SparseMultinomialPerceptron.table_ reserved_sparse) "bias" ""
  = Some (sample_weight 1)
  ∧ ∃ pb, ParseFromIstream (framed _)
            [SparseMultinomialPerceptron.Write_pb reserved_sparse "v1"]
          = Some pb
          ∧ ∀ key inner_pb,
              SparseMultinomialPerceptron_pb.table pb !! key = Some inner_pb →
              SparseInnerTable_pb.table inner_pb !! "" = None.
Proof.
  split; [reflexivity|].
  apply (proj2 Write_omits_reserved_label _ (framed _) reserved_sparse "v1").
  - apply framed_lawful.
  - reflexivity.
Defined.


(** C3.  A cell created at zero and updated with deltas [d1 .. dk] at
    clock values [t1 < ... < tk] has, at any later clock value [T], the
    average that direct recomputation gives: the sum over the steps
    [0 .. T-1] of the true weight during the step, divided by [T]. *)
Theorem GetAverage_matches_direct_recomputation
    (us : list (Qc * nat)) (T : nat) :
  increasing (us.*2) → Forall (λ u, u.2 < T) us →
  (AveragedWeight.GetAverage (apply_updates AveragedWeight.zero us) T).1
  = direct_average us T.
Proof.
  intros Hinc Hlt.
  assert (chain 0 us T) as Hchain.
  { apply increasing_chain; [done|done|lia|intros; lia]. }
  pose proof (freshen_apply_updates AveragedWeight.zero us T Hchain) as Hsum.
  unfold AveragedWeight.GetAverage, direct_average. cbn [fst].
  rewrite Hsum. simpl. rewrite Nat.sub_0_r.
  rewrite (sum_over_ext _ (weight_at us)) by (intros; ring).
  destruct (decide (T = 0)) as [->|_]; [|by rewrite Qcplus_0_l].
  simpl. unfold Qcdiv. by rewrite Qcmult_0_l.
Qed.

Lemma GetAverage_matches_direct_recomputation_witness :
  (AveragedWeight.GetAverage
     (apply_updates AveragedWeight.zero [(1%Qc, 1); ((-1)%Qc, 3)]) 5).1
  = direct_average [(1%Qc, 1); ((-1)%Qc, 3)] 5.
Proof.
  apply GetAverage_matches_direct_recomputation.
  - simpl. lia.
  - repeat constructor.
Defined.

(** ** A model returned by [Read] is complete *)

Section PartialLoops.
Context {St : Type}.

Lemma for_range_partial (Inv : nat → St → Prop)
    (body : nat → St → outcome St) (start n : nat) (s s' : St) :
  Inv start s →
  (∀ i s s', start ≤ i < start + n → Inv i s → body i s = Ok s' →
             Inv (S i) s') →
  for_range body start n s = Ok s' → Inv (start + n) s'.
Proof.
  revert start s. induction n as [|n IH]; intros start s H0 Hstep; simpl.
  - intros [= <-]. by rewrite Nat.add_0_r.
  - destruct (body start s) as [s1|] eqn:Hs1; [|done].
    cbn [mbind outcome_bind]. intros Hrun.
    replace (start + S n) with (S start + n) by lia.
    apply (IH (S start) s1); [|intros i ????; eapply Hstep; eauto; lia|done].
    eapply Hstep; [lia|exact H0|exact Hs1].
Qed.

Lemma for_each_ok_partial {A : Type} (M : gmap string A)
    (P : gmap string A → St → Prop)
    (body : string → A → St → outcome St) (s r : St) :
  P ∅ s →
  (∀ key x m r r', m !! key = None → M !! key = Some x → P m r →
                   body key x r = Ok r' → P (<[key := x]> m) r') →
  for_each_ok M body s = Ok r → P M r.
Proof.
  intros Hinit Hstep. unfold for_each_ok, for_each.
  cut (M ⊆ M → ∀ r,
         map_fold (λ key x acc, s' ← acc; body key x s') (Ok s) M = Ok r →
         P M r); [by auto|].
  generalize M at 1 3 4 as m.
  apply (map_fold_weak_ind (λ acc m, m ⊆ M → ∀ r, acc = Ok r → P m r)).
  - intros _ r' [= <-]. exact Hinit.
  - intros key x m acc Hnone IH Hsub r'.
    assert (M !! key = Some x) as HM.
    { eapply lookup_weaken; [|exact Hsub]. apply lookup_insert_eq. }
    destruct acc as [r0|]; [|done]. cbn [mbind outcome_bind]. intros Hbody.
    eapply Hstep; [done|done| |exact Hbody].
    apply IH; [|done]. etrans; [by apply insert_subseteq|exact Hsub].
Qed.
End PartialLoops.

(** The inner loop of the dense readers runs only if the row of the
    message is long enough. *)
Lemma read_inner_loop_Ok (n : nat) (cur0 cur : list Weight.t)
    (src : list Qc) :
  for_loop n
    (λ j inner_table,
       w ← DenseTable.at_ inner_table j;
       x ← DenseTable.at_ src j;
       Ok (<[j := Weight.Set_ w x]> inner_table))
    cur0
  = Ok cur →
  n ≤ length src.
Proof.
  apply (for_range_partial (λ j _, j ≤ length src)); [simpl; lia|].
  intros j s s' _ _ (w & _ & (x & Hx%at_Ok & _)%bind_Ok)%bind_Ok.
  by apply lookup_lt_Some in Hx.
Qed.

Lemma Dense_Read_Ok {stream : Type}
    (codec : Codec stream DenseMultinomialPerceptron_pb.t)
    (istrm : stream) (m : DenseMultinomialPerceptron.t) :
  DenseMultinomialPerceptron.Read codec istrm = Ok (Some m) →
  ∃ pb, ParseFromIstream codec istrm = Some pb ∧ Dense_pb_wf pb.
Proof.
  unfold DenseMultinomialPerceptron.Read.
  destruct (ParseFromIstream codec istrm) as [pb|]; [|done]. cbv zeta.
  destruct (for_loop _ _ _) as [tbl|] eqn:Hrun;
    cbn [mbind outcome_bind]; [|done].
  intros _. exists pb. split; [done|].
  unfold Dense_pb_wf. apply Forall_lookup_2. intros i inner Hinner.
  revert i inner Hinner.
  assert (∀ i inner,
            i < DenseMultinomialPerceptron_pb.table_size pb →
            DenseMultinomialPerceptron_pb.table pb !! i = Some inner →
            DenseMultinomialPerceptron_pb.inner_size pb
            ≤ length (DenseInnerTable_pb.table inner)) as Hall.
  { revert Hrun.
    apply (for_range_partial (λ k _,
      ∀ i inner, i < k →
        DenseMultinomialPerceptron_pb.table pb !! i = Some inner →
        DenseMultinomialPerceptron_pb.inner_size pb
        ≤ length (DenseInnerTable_pb.table inner))).
    - intros i inner Hi. lia.
    - intros k s s' _ IH.
      intros (row & _ & (inner_pb & Hk%at_Ok
                & (row' & Hinner & _)%bind_Ok)%bind_Ok)%bind_Ok.
      intros i inner Hi Hlookup.
      destruct (decide (i = k)) as [->|Hne].
      + rewrite Hk in Hlookup. injection Hlookup as <-.
        by apply read_inner_loop_Ok in Hinner.
      + apply (IH i); [lia|done]. }
  intros i inner Hinner. apply (Hall i); [|done].
  by apply lookup_lt_Some in Hinner.
Qed.

Lemma SparseDense_Read_Ok {stream : Type}
    (codec : Codec stream SparseDenseMultinomialPerceptron_pb.t)
    (istrm : stream) (m : SparseDenseMultinomialPerceptron.t) :
  SparseDenseMultinomialPerceptron.Read codec istrm = Ok (Some m) →
  ∃ pb, ParseFromIstream codec istrm = Some pb ∧ SparseDense_pb_wf pb.
Proof.
  unfold SparseDenseMultinomialPerceptron.Read.
  destruct (ParseFromIstream codec istrm) as [pb|]; [|done]. cbv zeta.
  destruct (for_each_ok _ _ _) as [tbl|] eqn:Hrun;
    cbn [mbind outcome_bind]; [|done].
  intros _. exists pb. split; [done|]. unfold SparseDense_pb_wf. revert Hrun.
  apply (for_each_ok_partial _ (λ M _,
    map_Forall (λ _ inner,
      SparseDenseMultinomialPerceptron_pb.inner_size pb
      ≤ length (DenseInnerTable_pb.table inner)) M)).
  - apply map_Forall_empty.
  - intros key inner M r r' Hnone HT IH. rewrite HT. cbn [default].
    intros (row' & Hinner & _)%bind_Ok.
    apply map_Forall_insert; [done|]. split; [|done].
    by apply read_inner_loop_Ok in Hinner.
Qed.



(** C1, as the code has it.  In each topology, reading back the stream
    [Write] produced gives a model equal to the one written on every
    cell, except that in the fully sparse topology the cells under the
    reserved empty label are gone; the metadata string is in the message
    the decoder recovers from the stream ([Read] returns the model
    only). *)
Theorem Read_Write_round_trip {sD sSD sS : Type}
    (cD : Codec sD DenseMultinomialPerceptron_pb.t)
    (cSD : Codec sSD SparseDenseMultinomialPerceptron_pb.t)
    (cS : Codec sS SparseMultinomialPerceptron_pb.t) :
  lawful cD → lawful cSD → lawful cS →
  (∀ m metadata ostrm,
     DenseMultinomialPerceptron.wf m →
     DenseMultinomialPerceptron.Write cD m metadata = Some ostrm →
     DenseMultinomialPerceptron.Read cD ostrm = Ok (Some m)
     ∧ DenseMultinomialPerceptron_pb.metadata
         <$> ParseFromIstream cD ostrm = Some metadata)
  ∧ (∀ m metadata ostrm,
       SparseDenseMultinomialPerceptron.wf m →
       SparseDenseMultinomialPerceptron.Write cSD m metadata
       = Ok (Some ostrm) →
       SparseDenseMultinomialPerceptron.Read cSD ostrm = Ok (Some m)
       ∧ SparseDenseMultinomialPerceptron_pb.metadata
           <$> ParseFromIstream cSD ostrm = Some metadata)
  ∧ (∀ m metadata ostrm,
       SparseMultinomialPerceptron.Write cS m metadata = Some ostrm →
       ∃ m',
         SparseMultinomialPerceptron.Read cS ostrm = Some m'
         ∧ SparseMultinomialPerceptron.InnerSize m'
           = SparseMultinomialPerceptron.InnerSize m
         ∧ SparseMultinomialPerceptron.OuterSize m'
           = SparseMultinomialPerceptron.OuterSize m
         ∧ (∀ key label,
              label ≠ "" →
              sparse_cell (SparseMultinomialPerceptron.table_ m') key label
              = sparse_cell (SparseMultinomialPerceptron.table_ m) key label)
         ∧ (∀ key,
              sparse_cell (SparseMultinomialPerceptron.table_ m') key ""
              = None)
         ∧ SparseMultinomialPerceptron_pb.metadata
             <$> ParseFromIstream cS ostrm = Some metadata).
Proof.
  intros HlD HlSD HlS. split; [|split].
  - intros m metadata ostrm Hwf Hwrite. by apply Dense_Read_Write.
  - intros m metadata ostrm Hwf Hwrite. by apply SparseDense_Read_Write.
  - intros m metadata ostrm Hwrite.
    destruct (Sparse_Read_Write cS m metadata ostrm HlS Hwrite)
      as [Hread Hmeta].
    eexists. split; [exact Hread|]. simpl. split; [done|].
    split; [apply map_size_fmap|]. split; [|split; [|done]].
    + intros key label Hlabel. rewrite sparse_cell_drop_reserved.
      apply string_empty_false in Hlabel. by rewrite Hlabel.
    + intros key. by rewrite sparse_cell_drop_reserved.
Qed.

Lemma Read_Write_round_trip_witness :
  DenseMultinomialPerceptron.Read (framed _)
    [DenseMultinomialPerceptron.Write_pb sample_dense "v1"]
  = Ok (Some sample_dense)
  ∧ (∃ ostrm,
       SparseDenseMultinomialPerceptron.Write (framed _) sample_sparse_dense
         "v1" = Ok (Some ostrm)
       ∧ SparseDenseMultinomialPerceptron.Read (framed _) ostrm
         = Ok (Some sample_sparse_dense))
  ∧ (∃ m',
       SparseMultinomialPerceptron.Read (framed _)
         [SparseMultinomialPerceptron.Write_pb sample_sparse "v1"] = Some m'
       ∧ sparse_cell (SparseMultinomialPerceptron.table_ m') "bias" "NOUN"
         = Some (sample_weight 1)).
Proof.
  destruct (Read_Write_round_trip (framed _) (framed _) (framed _)
              (framed_lawful _) (framed_lawful _) (framed_lawful _))
    as (HD & HSD & HS).
  split; [|split].
  - apply (HD sample_dense "v1").
    + repeat constructor.
    + reflexivity.
  - eexists. split; [reflexivity|].
    apply (HSD sample_sparse_dense "v1").
    + apply map_Forall_singleton. reflexivity.
    + reflexivity.
  - destruct (HS sample_sparse "v1"
                [SparseMultinomialPerceptron.Write_pb sample_sparse "v1"]
                eq_refl)
      as (m' & Hread & _ & _ & Hcell & _).
    exists m'. split; [exact Hread|].
    rewrite Hcell; [reflexivity|discriminate].
Defined.

(** C1 as stated fails in the fully sparse topology: a cell under the
    reserved label, present with value 1, reads as the zero cell in the
    model read back. *)
Lemma round_trip_loses_reserved_cell :
  ∃ ostrm m',
    SparseMultinomialPerceptron.Write (framed _) reserved_sparse "v1"
    = Some ostrm
    ∧ SparseMultinomialPerceptron.Read (framed _) ostrm = Some m'
    ∧ sparse_cell (SparseMultinomialPerceptron.table_ reserved_sparse)
        "bias" "" = Some (sample_weight 1)
    ∧ sparse_cell (SparseMultinomialPerceptron.table_ m') "bias" "" = None
    ∧ Weight.Get (default Weight.zero
                    (sparse_cell (SparseMultinomialPerceptron.table_ m')
                       "bias" ""))
      ≠ Weight.Get (default Weight.zero
                      (sparse_cell
                         (SparseMultinomialPerceptron.table_ reserved_sparse)
                         "bias" "")).
Proof.
  eexists _, _. split; [reflexivity|].
  split.
  { apply (Sparse_Read_Write (framed _) reserved_sparse "v1");
      [apply framed_lawful|reflexivity]. }
  split; [reflexivity|]. simpl.
  rewrite sparse_cell_drop_reserved. simpl. split; [done|].
  change (sparse_cell _ "bias" "") with (Some (sample_weight 1)). simpl.
  intros Heq. rewrite <-Z2Qc_inj_0 in Heq. by apply Z2Qc_inj in Heq.
Qed.

(** * Training and prediction *)



Section FreshModel.
Import DenseMultinomialAveragedPerceptron.



End FreshModel.

#[global] Instance encoded_lt_strict : StrictOrder encoded_lt.
Proof.
  unfold encoded_lt. split.
  - intros a. unfold complement. lia.
  - intros a b c. lia.
Qed.

#[global] Instance encoded_lt_trichotomy : Trichotomy encoded_lt.
Proof.
  intros a b. unfold encoded_lt.
  destruct (Pos.lt_total (encode a) (encode b)) as [?|[Heq|?]]; auto.
  right. left. by apply (inj encode).
Qed.



(** * Concrete runs *)

Example ArgMax_tie_lowest_label :
  ArgMax Nat.lt [(1, 0%Qc); (0, 0%Qc); (2, 0%Qc)] = Some 0
  ∧ ArgMax Nat.lt [(2, 0%Qc); (1, 0%Qc); (0, 0%Qc)] = Some 0
  ∧ ArgMax Nat.lt [(0, 0%Qc); (1, 1%Qc); (2, 1%Qc)] = Some 1.
Proof. repeat split; reflexivity. Qed.

Example direct_average_sample :
  direct_average [(1%Qc, 1); ((-1)%Qc, 3)] 5 = Q2Qc (2 # 5)
  ∧ (AveragedWeight.GetAverage
       (apply_updates AveragedWeight.zero [(1%Qc, 1); ((-1)%Qc, 3)]) 5).1
    = Q2Qc (2 # 5).
Proof. split; apply Qc_is_canon; reflexivity. Qed.

Example second_round_predicts_gold :
  ∃ m1 m2,
    DenseMultinomialAveragedPerceptron.train_one
      (DenseMultinomialAveragedPerceptron.Base 3 2) [0; 1] 1 = Ok (0, m1)
    ∧ DenseMultinomialAveragedPerceptron.train_one m1 [0; 1] 1 = Ok (1, m2)
    ∧ DenseMultinomialAveragedPerceptron.Time m2 = 2
    ∧ DenseMultinomialAveragedPerceptron.table_ m2
      = DenseMultinomialAveragedPerceptron.table_ m1.
Proof.
  eexists _, _. split; [vm_compute; reflexivity|].
  split; [vm_compute; reflexivity|]. split; reflexivity.
Qed.

Example Dense_Write_pb_sample :
  DenseMultinomialPerceptron.Write_pb sample_dense "v1"
  = DenseMultinomialPerceptron_pb.Make "v1" 2
      [DenseInnerTable_pb.Make [Qc_of_Z (-1); Qc_of_Z 1];
       DenseInnerTable_pb.Make [Qc_of_Z 0; Qc_of_Z 2]].
Proof. reflexivity. Qed.

Example round_trip_samples :
  DenseMultinomialPerceptron.Read (framed _)
    [DenseMultinomialPerceptron.Write_pb sample_dense "v1"]
  = Ok (Some sample_dense)
  ∧ SparseMultinomialPerceptron.Write_pb reserved_sparse "v1"
    = SparseMultinomialPerceptron_pb.Make "v1" 1
        {[ "bias" := SparseInnerTable_pb.empty ]}
  ∧ SparseMultinomialPerceptron.Read (framed _)
      [SparseMultinomialPerceptron.Write_pb reserved_sparse "v1"]
    = Some (SparseMultinomialPerceptron.Make {[ "bias" := ∅ ]} 1).
Proof. repeat split; vm_compute; reflexivity. Qed.

Example freeze_sample :
  ∃ m avg',
    DenseMultinomialPerceptron.MultinomialPerceptronTpl sample_dense_averaged
    = Ok (m, avg')
    ∧ Weight.Get <$> dense_cell (DenseMultinomialPerceptron.table_ m) 0 0
      = Some (Qc_of_Z (-1))
    ∧ Weight.Get <$> dense_cell (DenseMultinomialPerceptron.table_ m) 1 1
      = Some (Q2Qc (3 # 2))
    ∧ AveragedWeight.Get
        <$> dense_cell (DenseMultinomialAveragedPerceptron.table_ avg') 1 1
      = Some (Qc_of_Z 2)
    ∧ AveragedWeight.aweight_
        <$> dense_cell (DenseMultinomialAveragedPerceptron.table_ avg') 1 1
      = Some (Qc_of_Z 6).
Proof.
  eexists _, _. split; [vm_compute; reflexivity|].
  repeat split; simpl; f_equal; apply Qc_is_canon; reflexivity.
Qed.

(** * Further properties of [Read], [Write] and the freezing constructors *)

(** ** Auxiliary facts *)

Lemma list_fmap_fixed {A : Type} (f : A → A) (l : list A) :
  f <$> l = l ↔ Forall (λ x, f x = x) l.
Proof.
  induction l as [|x l IH]; simpl.
  - split; [by constructor|done].
  - split.
    + intros [= Hx Hl]. constructor; [done|]. by apply IH.
    + intros [Hx Hl]%Forall_cons. f_equal; [done|]. by apply IH.
Qed.

Lemma map_fmap_fixed {A : Type} (f : A → A) (m : gmap string A) :
  f <$> m = m ↔ map_Forall (λ _ x, f x = x) m.
Proof.
  split.
  - intros Heq key x Hx. apply (f_equal (.!! key)) in Heq.
    rewrite lookup_fmap, Hx in Heq. by injection Heq.
  - intros Hall. apply map_eq. intros key. rewrite lookup_fmap.
    destruct (m !! key) as [x|] eqn:Hx; [|done]. simpl.
    by rewrite (Hall key x Hx).
Qed.

Lemma drop_reserved_fmap {A B : Type} (f : A → B) (inner : gmap string A) :
  drop_reserved (f <$> inner) = f <$> drop_reserved inner.
Proof.
  apply map_eq. intros label.
  rewrite lookup_fmap, !drop_reserved_lookup, lookup_fmap.
  by destruct (string_empty label).
Qed.

Lemma drop_reserved_fixed {A : Type} (inner : gmap string A) :
  drop_reserved inner = inner ↔ inner !! "" = None.
Proof.
  split.
  - intros <-. by rewrite drop_reserved_lookup.
  - intros Hnone. apply map_eq. intros label.
    rewrite drop_reserved_lookup.
    destruct (string_empty label) eqn:He; [|done].
    apply string_empty_true in He. by subst label.
Qed.

Lemma row_pb_row_of_pb (n : nat) (inner : DenseInnerTable_pb.t) :
  row_pb (row_of_pb n inner)
  = DenseInnerTable_pb.Make (take n (DenseInnerTable_pb.table inner)).
Proof.
  unfold row_pb, row_of_pb. f_equal. rewrite <-list_fmap_compose.
  rewrite <-(list_fmap_id (take n _)) at 2. by apply list_fmap_ext.
Qed.

Lemma take_fixed {A : Type} (n : nat) (l : list A) :
  take n l = l ↔ length l ≤ n.
Proof.
  split.
  - intros Heq. apply (f_equal length) in Heq.
    rewrite length_take in Heq. lia.
  - apply firstn_all2.
Qed.

Lemma length_row_of_pb (n : nat) (inner : DenseInnerTable_pb.t) :
  n ≤ length (DenseInnerTable_pb.table inner) →
  length (row_of_pb n inner) = n.
Proof.
  intros Hn. unfold row_of_pb. rewrite length_fmap, length_take. lia.
Qed.

Lemma row_of_pb_lookup (n : nat) (inner : DenseInnerTable_pb.t) (j : nat) :
  row_of_pb n inner !! j
  = if decide (j < n)
    then Weight.Make <$> DenseInnerTable_pb.table inner !! j
    else None.
Proof.
  unfold row_of_pb. rewrite list_lookup_fmap.
  destruct (decide (j < n)) as [Hj|Hj].
  - by rewrite lookup_take_lt.
  - by rewrite lookup_take_ge by lia.
Qed.

(** ** What [Read] builds from a message *)

(** X1.  A model that [Read] returns has the sizes of the decoded
    message (as many outer entries as the message has inner tables, and
    its [inner_size]); with dense inner tables every inner table has
    exactly [inner_size] cells, holding the first [inner_size] scalars of
    the message's row, and scalars beyond are dropped; with sparse inner
    tables every entry of the message is copied, the reserved empty label
    included. *)
Theorem Read_decode_contract {sD sSD sS : Type}
    (cD : Codec sD DenseMultinomialPerceptron_pb.t)
    (cSD : Codec sSD SparseDenseMultinomialPerceptron_pb.t)
    (cS : Codec sS SparseMultinomialPerceptron_pb.t) :
  (∀ istrm m,
     DenseMultinomialPerceptron.Read cD istrm = Ok (Some m) →
     ∃ pb, ParseFromIstream cD istrm = Some pb
       ∧ DenseMultinomialPerceptron.OuterSize m
         = DenseMultinomialPerceptron_pb.table_size pb
       ∧ DenseMultinomialPerceptron.InnerSize m
         = DenseMultinomialPerceptron_pb.inner_size pb
       ∧ DenseMultinomialPerceptron.wf m
       ∧ ∀ i j,
           Weight.Get <$> dense_cell (DenseMultinomialPerceptron.table_ m) i j
           = if decide (j < DenseMultinomialPerceptron_pb.inner_size pb)
             then Dense_pb_cell pb i j else None)
  ∧ (∀ istrm m,
       SparseDenseMultinomialPerceptron.Read cSD istrm = Ok (Some m) →
       ∃ pb, ParseFromIstream cSD istrm = Some pb
         ∧ SparseDenseMultinomialPerceptron.OuterSize m
           = SparseDenseMultinomialPerceptron_pb.table_size pb
         ∧ SparseDenseMultinomialPerceptron.InnerSize m
           = SparseDenseMultinomialPerceptron_pb.inner_size pb
         ∧ SparseDenseMultinomialPerceptron.wf m
         ∧ ∀ key j,
             Weight.Get
               <$> sparse_dense_cell
                     (SparseDenseMultinomialPerceptron.table_ m) key j
             = if decide
                    (j < SparseDenseMultinomialPerceptron_pb.inner_size pb)
               then SparseDense_pb_cell pb key j else None)
  ∧ (∀ istrm m,
       SparseMultinomialPerceptron.Read cS istrm = Some m →
       ∃ pb, ParseFromIstream cS istrm = Some pb
         ∧ SparseMultinomialPerceptron.OuterSize m
           = SparseMultinomialPerceptron_pb.table_size pb
         ∧ SparseMultinomialPerceptron.InnerSize m
           = SparseMultinomialPerceptron_pb.inner_size pb
         ∧ ∀ key label,
             Weight.Get
               <$> sparse_cell (SparseMultinomialPerceptron.table_ m)
                     key label
             = Sparse_pb_cell pb key label).
Proof.
  split; [|split].
  - intros istrm m Hread.
    destruct (Dense_Read_Ok cD istrm m Hread) as (pb & Hparse & Hwf).
    exists pb. split; [done|].
    rewrite (Dense_Read_run cD istrm pb Hparse Hwf) in Hread.
    injection Hread as <-.
    unfold DenseMultinomialPerceptron.OuterSize,
      DenseMultinomialPerceptron.InnerSize, DenseMultinomialPerceptron.wf,
      DenseMultinomialPerceptron_pb.table_size. simpl.
    split; [by rewrite length_fmap|]. split; [done|]. split.
    + apply Forall_fmap. eapply Forall_impl; [exact Hwf|].
      intros inner Hinner. by apply length_row_of_pb.
    + intros i j. unfold dense_cell, Dense_pb_cell.
      rewrite list_lookup_fmap.
      destruct (DenseMultinomialPerceptron_pb.table pb !! i) as [inner|];
        simpl; [|by destruct (decide _)].
      rewrite row_of_pb_lookup. destruct (decide _); [|done].
      by destruct (DenseInnerTable_pb.table inner !! j).
  - intros istrm m Hread.
    destruct (SparseDense_Read_Ok cSD istrm m Hread) as (pb & Hparse & Hwf).
    exists pb. split; [done|].
    rewrite (SparseDense_Read_run cSD istrm pb Hparse Hwf) in Hread.
    injection Hread as <-.
    unfold SparseDenseMultinomialPerceptron.OuterSize,
      SparseDenseMultinomialPerceptron.InnerSize,
      SparseDenseMultinomialPerceptron.wf,
      SparseDenseMultinomialPerceptron_pb.table_size. simpl.
    split; [by rewrite map_size_fmap|]. split; [done|]. split.
    + apply map_Forall_fmap. intros key inner Hinner. simpl.
      apply length_row_of_pb. by apply (Hwf key inner Hinner).
    + intros key j. unfold sparse_dense_cell, SparseDense_pb_cell.
      rewrite lookup_fmap.
      destruct (SparseDenseMultinomialPerceptron_pb.table pb !! key)
        as [inner|]; simpl; [|by destruct (decide _)].
      rewrite row_of_pb_lookup. destruct (decide _); [|done].
      by destruct (DenseInnerTable_pb.table inner !! j).
  - intros istrm m Hread.
    destruct (ParseFromIstream cS istrm) as [pb|] eqn:Hparse.
    + exists pb. split; [done|].
      rewrite (Sparse_Read_run cS istrm pb Hparse) in Hread.
      injection Hread as <-.
      unfold SparseMultinomialPerceptron.OuterSize,
        SparseMultinomialPerceptron.InnerSize,
        SparseMultinomialPerceptron_pb.table_size. simpl.
      split; [by rewrite map_size_fmap|]. split; [done|].
      intros key label. unfold sparse_cell, Sparse_pb_cell.
      rewrite lookup_fmap.
      destruct (SparseMultinomialPerceptron_pb.table pb !! key)
        as [inner|]; simpl; [|done].
      unfold sparse_inner_of_pb. rewrite lookup_fmap.
      by destruct (SparseInnerTable_pb.table inner !! label).
    + unfold SparseMultinomialPerceptron.Read in Hread.
      by rewrite Hparse in Hread.
Qed.

Lemma Read_decode_contract_witness :
  (∃ m, DenseMultinomialPerceptron.Read (framed _) [long_dense_pb]
        = Ok (Some m)
        ∧ DenseMultinomialPerceptron.OuterSize m = 1
        ∧ Weight.Get <$> dense_cell (DenseMultinomialPerceptron.table_ m) 0 1
          = Some (Qc_of_Z 1)
        ∧ Weight.Get <$> dense_cell (DenseMultinomialPerceptron.table_ m) 0 2
          = None)
  ∧ (∃ m, SparseMultinomialPerceptron.Read (framed _) [reserved_sparse_pb]
          = Some m
          ∧ Weight.Get
              <$> sparse_cell (SparseMultinomialPerceptron.table_ m) "bias" ""
            = Some (Qc_of_Z 1)).
Proof.
  destruct (Read_decode_contract (framed _)
              (framed SparseDenseMultinomialPerceptron_pb.t) (framed _))
    as (HD & _ & HS).
  split.
  - assert (DenseMultinomialPerceptron.Read (framed _) [long_dense_pb]
            = Ok (Some (DenseMultinomialPerceptron.Make
                          (row_of_pb 2 <$> DenseMultinomialPerceptron_pb.table
                                             long_dense_pb) 2))) as Hread.
    { apply (Dense_Read_run (framed _) [long_dense_pb] long_dense_pb).
      - reflexivity.
      - repeat constructor. }
    destruct (HD _ _ Hread) as (pb & Hparse & Hout & _ & _ & Hcell).
    injection Hparse as <-. eexists. split; [exact Hread|].
    split; [exact Hout|]. split; [exact (Hcell 0 1)|exact (Hcell 0 2)].
  - assert (SparseMultinomialPerceptron.Read (framed _) [reserved_sparse_pb]
            = Some (SparseMultinomialPerceptron.Make
                      (sparse_inner_of_pb
                         <$> SparseMultinomialPerceptron_pb.table
                               reserved_sparse_pb) 2)) as Hread.
    { by apply (Sparse_Read_run (framed _) [reserved_sparse_pb]). }
    destruct (HS _ _ Hread) as (pb & Hparse & _ & _ & Hcell).
    injection Hparse as <-. eexists. split; [exact Hread|].
    exact (Hcell "bias" "").
Defined.

(** ** Where the dense readers are undefined *)

Lemma Dense_pb_wf_short (pb : DenseMultinomialPerceptron_pb.t) :
  ¬ Dense_pb_wf pb ↔
  ∃ i inner, DenseMultinomialPerceptron_pb.table pb !! i = Some inner
             ∧ length (DenseInnerTable_pb.table inner)
               < DenseMultinomialPerceptron_pb.inner_size pb.
Proof.
  unfold Dense_pb_wf. split.
  - intros Hn. apply not_Forall_Exists in Hn; [|apply _].
    apply Exists_exists in Hn as (inner & Hin & Hshort).
    apply list_elem_of_lookup in Hin as [i Hi].
    exists i, inner. split; [done|]. simpl in Hshort. lia.
  - intros (i & inner & Hi & Hshort) Hall.
    pose proof (Forall_lookup_1 _ _ _ _ Hall Hi) as Hle. simpl in Hle. lia.
Qed.

Lemma SparseDense_pb_wf_short (pb : SparseDenseMultinomialPerceptron_pb.t) :
  ¬ SparseDense_pb_wf pb ↔
  ∃ key inner,
    SparseDenseMultinomialPerceptron_pb.table pb !! key = Some inner
    ∧ length (DenseInnerTable_pb.table inner)
      < SparseDenseMultinomialPerceptron_pb.inner_size pb.
Proof.
  unfold SparseDense_pb_wf. rewrite map_not_Forall; [|apply _].
  unfold map_Exists. split.
  - intros (key & inner & Hkey & Hshort). exists key, inner.
    split; [done|]. lia.
  - intros (key & inner & Hkey & Hshort). exists key, inner.
    split; [done|]. lia.
Qed.

(** X2.  [Read] with dense inner tables is undefined exactly on the
    streams that decode to a message one of whose inner tables has fewer
    than [inner_size] scalars: the loop over [j < inner_size] then indexes
    the row past its end.  No check guards it and no null pointer is
    returned. *)
Theorem Read_undefined_on_short_rows {sD sSD : Type}
    (cD : Codec sD DenseMultinomialPerceptron_pb.t)
    (cSD : Codec sSD SparseDenseMultinomialPerceptron_pb.t) :
  (∀ istrm,
     DenseMultinomialPerceptron.Read cD istrm = Undefined ↔
     ∃ pb i inner,
       ParseFromIstream cD istrm = Some pb
       ∧ DenseMultinomialPerceptron_pb.table pb !! i = Some inner
       ∧ length (DenseInnerTable_pb.table inner)
         < DenseMultinomialPerceptron_pb.inner_size pb)
  ∧ (∀ istrm,
       SparseDenseMultinomialPerceptron.Read cSD istrm = Undefined ↔
       ∃ pb key inner,
         ParseFromIstream cSD istrm = Some pb
         ∧ SparseDenseMultinomialPerceptron_pb.table pb !! key = Some inner
         ∧ length (DenseInnerTable_pb.table inner)
           < SparseDenseMultinomialPerceptron_pb.inner_size pb).
Proof.
  split; intros istrm; split.
  - intros Hread.
    destruct (ParseFromIstream cD istrm) as [pb|] eqn:Hparse.
    + exists pb.
      destruct (proj1 (Dense_pb_wf_short pb)) as (i & inner & Hi & Hshort).
      { intros Hwf.
        by rewrite (Dense_Read_run cD istrm pb Hparse Hwf) in Hread. }
      by exists i, inner.
    + unfold DenseMultinomialPerceptron.Read in Hread.
      by rewrite Hparse in Hread.
  - intros (pb & i & inner & Hparse & Hi & Hshort).
    destruct (DenseMultinomialPerceptron.Read cD istrm) as [[m|]|] eqn:Hread;
      [| |done].
    + destruct (Dense_Read_Ok cD istrm m Hread) as (pb' & Hparse' & Hwf).
      rewrite Hparse in Hparse'. injection Hparse' as <-.
      destruct (proj2 (Dense_pb_wf_short pb)); [by exists i, inner|done].
    + unfold DenseMultinomialPerceptron.Read in Hread.
      rewrite Hparse in Hread. cbv zeta in Hread.
      by destruct (for_loop _ _ _).
  - intros Hread.
    destruct (ParseFromIstream cSD istrm) as [pb|] eqn:Hparse.
    + exists pb.
      destruct (proj1 (SparseDense_pb_wf_short pb))
        as (key & inner & Hkey & Hshort).
      { intros Hwf.
        by rewrite (SparseDense_Read_run cSD istrm pb Hparse Hwf) in Hread. }
      by exists key, inner.
    + unfold SparseDenseMultinomialPerceptron.Read in Hread.
      by rewrite Hparse in Hread.
  - intros (pb & key & inner & Hparse & Hkey & Hshort).
    destruct (SparseDenseMultinomialPerceptron.Read cSD istrm)
      as [[m|]|] eqn:Hread; [| |done].
    + destruct (SparseDense_Read_Ok cSD istrm m Hread)
        as (pb' & Hparse' & Hwf).
      rewrite Hparse in Hparse'. injection Hparse' as <-.
      destruct (proj2 (SparseDense_pb_wf_short pb));
        [by exists key, inner|done].
    + unfold SparseDenseMultinomialPerceptron.Read in Hread.
      rewrite Hparse in Hread. cbv zeta in Hread.
      by destruct (for_each_ok _ _ _).
Qed.

Lemma Read_undefined_on_short_rows_witness :
  DenseMultinomialPerceptron.Read (framed _) [short_dense_pb] = Undefined
  ∧ SparseDenseMultinomialPerceptron.Read (framed _) [short_sparse_dense_pb]
    = Undefined.
Proof.
  destruct (Read_undefined_on_short_rows (framed _) (framed _))
    as (HD & HSD).
  split.
  - apply HD. exists short_dense_pb, 1, (DenseInnerTable_pb.Make [Qc_of_Z 0]).
    split; [reflexivity|]. split; [reflexivity|]. simpl. lia.
  - apply HSD.
    exists short_sparse_dense_pb, "bias",
      (DenseInnerTable_pb.Make [Qc_of_Z (-1)]).
    split; [reflexivity|]. split; [reflexivity|]. simpl. lia.
Defined.

(** ** What [Write] puts in the message *)

(** X3.  The message [Write] hands to the serializer carries the
    metadata string verbatim, the model's [InnerSize] as [inner_size],
    one inner table per outer entry of the model, and at each place the
    value [Get] of the model's cell there; with sparse inner tables the
    places under the reserved empty label are left out and every other
    cell is written. *)
Theorem Write_message_contents :
  (∀ (m : DenseMultinomialPerceptron.t) (metadata : string),
     let pb := DenseMultinomialPerceptron.Write_pb m metadata in
     DenseMultinomialPerceptron_pb.metadata pb = metadata
     ∧ DenseMultinomialPerceptron_pb.inner_size pb
       = DenseMultinomialPerceptron.InnerSize m
     ∧ DenseMultinomialPerceptron_pb.table_size pb
       = DenseMultinomialPerceptron.OuterSize m
     ∧ ∀ i j,
         Dense_pb_cell pb i j
         = Weight.Get
             <$> dense_cell (DenseMultinomialPerceptron.table_ m) i j)
  ∧ (∀ (m : SparseDenseMultinomialPerceptron.t) (metadata : string),
       SparseDenseMultinomialPerceptron.wf m →
       ∃ pb,
         SparseDenseMultinomialPerceptron.Write_pb m metadata = Ok pb
         ∧ SparseDenseMultinomialPerceptron_pb.metadata pb = metadata
         ∧ SparseDenseMultinomialPerceptron_pb.inner_size pb
           = SparseDenseMultinomialPerceptron.InnerSize m
         ∧ SparseDenseMultinomialPerceptron_pb.table_size pb
           = SparseDenseMultinomialPerceptron.OuterSize m
         ∧ ∀ key j,
             SparseDense_pb_cell pb key j
             = Weight.Get
                 <$> sparse_dense_cell
                       (SparseDenseMultinomialPerceptron.table_ m) key j)
  ∧ (∀ (m : SparseMultinomialPerceptron.t) (metadata : string),
       let pb := SparseMultinomialPerceptron.Write_pb m metadata in
       SparseMultinomialPerceptron_pb.metadata pb = metadata
       ∧ SparseMultinomialPerceptron_pb.inner_size pb
         = SparseMultinomialPerceptron.InnerSize m
       ∧ SparseMultinomialPerceptron_pb.table_size pb
         = SparseMultinomialPerceptron.OuterSize m
       ∧ ∀ key label,
           Sparse_pb_cell pb key label
           = if string_empty label then None
             else Weight.Get
                    <$> sparse_cell (SparseMultinomialPerceptron.table_ m)
                          key label).
Proof.
  split; [|split].
  - intros m metadata. cbv zeta. rewrite Dense_Write_pb_eq.
    unfold DenseMultinomialPerceptron_pb.table_size,
      DenseMultinomialPerceptron.OuterSize. simpl.
    split; [done|]. split; [done|]. split; [by rewrite length_fmap|].
    intros i j. unfold Dense_pb_cell, dense_cell. simpl.
    rewrite list_lookup_fmap.
    destruct (DenseMultinomialPerceptron.table_ m !! i) as [row|];
      simpl; [|done].
    by rewrite list_lookup_fmap.
  - intros m metadata Hwf.
    rewrite (SparseDense_Write_pb_eq m metadata Hwf). eexists.
    split; [done|].
    unfold SparseDenseMultinomialPerceptron_pb.table_size,
      SparseDenseMultinomialPerceptron.OuterSize. simpl.
    split; [done|]. split; [done|]. split; [by rewrite map_size_fmap|].
    intros key j. unfold SparseDense_pb_cell, sparse_dense_cell. simpl.
    rewrite lookup_fmap.
    destruct (SparseDenseMultinomialPerceptron.table_ m !! key) as [row|];
      simpl; [|done].
    by rewrite list_lookup_fmap.
  - intros m metadata. cbv zeta. rewrite Sparse_Write_pb_eq.
    unfold SparseMultinomialPerceptron_pb.table_size,
      SparseMultinomialPerceptron.OuterSize. simpl.
    split; [done|]. split; [done|]. split; [by rewrite map_size_fmap|].
    intros key label. unfold Sparse_pb_cell, sparse_cell. simpl.
    rewrite lookup_fmap.
    destruct (SparseMultinomialPerceptron.table_ m !! key) as [inner|];
      simpl; [|by destruct (string_empty label)].
    rewrite lookup_fmap, drop_reserved_lookup.
    by destruct (string_empty label).
Qed.

Lemma Write_message_contents_witness :
  ∃ pb,
    SparseDenseMultinomialPerceptron.Write_pb sample_sparse_dense "v1"
    = Ok pb
    ∧ SparseDenseMultinomialPerceptron_pb.table_size pb = 1
    ∧ SparseDense_pb_cell pb "bias" 1 = Some (Qc_of_Z 1).
Proof.
  destruct (proj1 (proj2 Write_message_contents) sample_sparse_dense "v1")
    as (pb & Hrun & _ & _ & Hsize & Hcell).
  - apply map_Forall_singleton. reflexivity.
  - exists pb. split; [exact Hrun|]. split; [exact Hsize|].
    exact (Hcell "bias" 1).
Defined.

(** ** Decoding, then encoding *)

Lemma row_pb_row_of_pb_fixed (n : nat) (inner : DenseInnerTable_pb.t) :
  n ≤ length (DenseInnerTable_pb.table inner) →
  row_pb (row_of_pb n inner) = inner
  ↔ length (DenseInnerTable_pb.table inner) = n.
Proof.
  intros Hn. rewrite row_pb_row_of_pb. destruct inner as [xs]. simpl in *.
  split.
  - intros [= Htake]. apply take_fixed in Htake. lia.
  - intros Hlen. f_equal. apply take_fixed. lia.
Qed.

Lemma sparse_inner_pb_of_pb (inner : SparseInnerTable_pb.t) :
  sparse_inner_pb (sparse_inner_of_pb inner)
  = SparseInnerTable_pb.Make
      (drop_reserved (SparseInnerTable_pb.table inner)).
Proof.
  unfold sparse_inner_pb, sparse_inner_of_pb. f_equal.
  rewrite drop_reserved_fmap, <-map_fmap_compose.
  rewrite <-(map_fmap_id (drop_reserved _)) at 2. by apply map_fmap_ext.
Qed.

Lemma sparse_inner_pb_of_pb_fixed (inner : SparseInnerTable_pb.t) :
  sparse_inner_pb (sparse_inner_of_pb inner) = inner
  ↔ SparseInnerTable_pb.table inner !! "" = None.
Proof.
  rewrite sparse_inner_pb_of_pb, <-drop_reserved_fixed.
  destruct inner as [xs]. simpl. split; [by intros [= ->]|by intros ->].
Qed.

(** X4.  Writing the model [Read] built from a message reproduces the
    message, with the metadata given to [Write], exactly when the message
    is in the form [Write] itself emits: inner tables of exactly
    [inner_size] scalars for dense inner tables, no entry under the
    reserved empty label for sparse ones.  Otherwise the surplus scalars,
    or the reserved entries, are lost. *)
Theorem Write_Read_reproduces_message {sD sSD sS : Type}
    (cD : Codec sD DenseMultinomialPerceptron_pb.t)
    (cSD : Codec sSD SparseDenseMultinomialPerceptron_pb.t)
    (cS : Codec sS SparseMultinomialPerceptron_pb.t) :
  (∀ istrm pb,
     ParseFromIstream cD istrm = Some pb → Dense_pb_wf pb →
     ∃ m, DenseMultinomialPerceptron.Read cD istrm = Ok (Some m)
          ∧ ∀ metadata,
              DenseMultinomialPerceptron.Write_pb m metadata
              = DenseMultinomialPerceptron_pb.set_metadata pb metadata
              ↔ Dense_pb_canonical pb)
  ∧ (∀ istrm pb,
       ParseFromIstream cSD istrm = Some pb → SparseDense_pb_wf pb →
       ∃ m, SparseDenseMultinomialPerceptron.Read cSD istrm = Ok (Some m)
            ∧ ∀ metadata,
                SparseDenseMultinomialPerceptron.Write_pb m metadata
                = Ok (SparseDenseMultinomialPerceptron_pb.set_metadata pb
                        metadata)
                ↔ SparseDense_pb_canonical pb)
  ∧ (∀ istrm pb,
       ParseFromIstream cS istrm = Some pb →
       ∃ m, SparseMultinomialPerceptron.Read cS istrm = Some m
            ∧ ∀ metadata,
                SparseMultinomialPerceptron.Write_pb m metadata
                = SparseMultinomialPerceptron_pb.set_metadata pb metadata
                ↔ Sparse_pb_canonical pb).
Proof.
  split; [|split].
  - intros istrm [meta n T] Hparse Hwf.
    rewrite (Dense_Read_run cD istrm _ Hparse Hwf). eexists. split; [done|].
    intros metadata. rewrite Dense_Write_pb_eq.
    unfold Dense_pb_wf, Dense_pb_canonical,
      DenseMultinomialPerceptron_pb.set_metadata in *. simpl in *.
    rewrite <-list_fmap_compose. split.
    + intros [= Hfix]. apply list_fmap_fixed in Hfix.
      apply Forall_lookup_2. intros i inner Hi.
      apply row_pb_row_of_pb_fixed.
      * by apply (Forall_lookup_1 _ _ _ _ Hwf Hi).
      * by apply (Forall_lookup_1 _ _ _ _ Hfix Hi).
    + intros Hcan. f_equal. apply list_fmap_fixed.
      apply Forall_lookup_2. intros i inner Hi. simpl.
      apply row_pb_row_of_pb_fixed.
      * by apply (Forall_lookup_1 _ _ _ _ Hwf Hi).
      * by apply (Forall_lookup_1 _ _ _ _ Hcan Hi).
  - intros istrm [meta n T] Hparse Hwf.
    rewrite (SparseDense_Read_run cSD istrm _ Hparse Hwf).
    eexists. split; [done|]. intros metadata.
    rewrite SparseDense_Write_pb_eq.
    2:{ unfold SparseDenseMultinomialPerceptron.wf. simpl.
        apply map_Forall_fmap. intros key inner Hkey. simpl.
        apply length_row_of_pb. by apply (Hwf key inner Hkey). }
    unfold SparseDense_pb_wf, SparseDense_pb_canonical,
      SparseDenseMultinomialPerceptron_pb.set_metadata in *. simpl in *.
    rewrite <-map_fmap_compose. split.
    + intros [= Hfix]. apply map_fmap_fixed in Hfix.
      intros key inner Hkey. simpl.
      apply row_pb_row_of_pb_fixed.
      * by apply (Hwf key inner Hkey).
      * by apply (Hfix key inner Hkey).
    + intros Hcan. do 2 f_equal. apply map_fmap_fixed.
      intros key inner Hkey. simpl.
      apply row_pb_row_of_pb_fixed.
      * by apply (Hwf key inner Hkey).
      * by apply (Hcan key inner Hkey).
  - intros istrm [meta n T] Hparse.
    rewrite (Sparse_Read_run cS istrm _ Hparse). eexists. split; [done|].
    intros metadata. rewrite Sparse_Write_pb_eq.
    unfold Sparse_pb_canonical,
      SparseMultinomialPerceptron_pb.set_metadata. simpl.
    rewrite <-map_fmap_compose. split.
    + intros [= Hfix]. apply map_fmap_fixed in Hfix.
      intros key inner Hkey. simpl.
      apply sparse_inner_pb_of_pb_fixed. by apply (Hfix key inner Hkey).
    + intros Hcan. f_equal. apply map_fmap_fixed.
      intros key inner Hkey. simpl.
      apply sparse_inner_pb_of_pb_fixed. by apply (Hcan key inner Hkey).
Qed.

Lemma Write_Read_reproduces_message_witness :
  (∃ m, DenseMultinomialPerceptron.Read (framed _) [sample_dense_pb]
        = Ok (Some m)
        ∧ DenseMultinomialPerceptron.Write_pb m "v1" = sample_dense_pb)
  ∧ (∃ m, DenseMultinomialPerceptron.Read (framed _) [long_dense_pb]
          = Ok (Some m)
          ∧ DenseMultinomialPerceptron.Write_pb m "v1" ≠ long_dense_pb)
  ∧ (∃ m, SparseDenseMultinomialPerceptron.Read (framed _)
            [sample_sparse_dense_pb] = Ok (Some m)
          ∧ SparseDenseMultinomialPerceptron.Write_pb m "v1"
            = Ok sample_sparse_dense_pb)
  ∧ (∃ m, SparseMultinomialPerceptron.Read (framed _) [reserved_sparse_pb]
          = Some m
          ∧ SparseMultinomialPerceptron.Write_pb m "v1"
            ≠ reserved_sparse_pb).
Proof.
  destruct (Write_Read_reproduces_message (framed _) (framed _) (framed _))
    as (HD & HSD & HS).
  split; [|split; [|split]].
  - destruct (HD [sample_dense_pb] sample_dense_pb eq_refl)
      as (m & Hread & Hwrite).
    + repeat constructor.
    + exists m. split; [exact Hread|]. apply (Hwrite "v1").
      repeat constructor.
  - destruct (HD [long_dense_pb] long_dense_pb eq_refl)
      as (m & Hread & Hwrite).
    + repeat constructor.
    + exists m. split; [exact Hread|]. intros Heq.
      apply (Hwrite "v1") in Heq.
      apply Forall_cons in Heq as [Hlen _]. simpl in Hlen. lia.
  - destruct (HSD [sample_sparse_dense_pb] sample_sparse_dense_pb eq_refl)
      as (m & Hread & Hwrite).
    + apply map_Forall_singleton. simpl. lia.
    + exists m. split; [exact Hread|]. apply (Hwrite "v1").
      apply map_Forall_singleton. reflexivity.
  - destruct (HS [reserved_sparse_pb] reserved_sparse_pb eq_refl)
      as (m & Hread & Hwrite).
    exists m. split; [exact Hread|]. intros Heq.
    apply (Hwrite "v1") in Heq. unfold Sparse_pb_canonical in Heq.
    simpl in Heq. apply map_Forall_singleton in Heq. simpl in Heq.
    rewrite lookup_singleton_eq in Heq. discriminate.
Defined.

(** ** The freezing constructors and the class invariant *)

Lemma frozen_rows_wf (n time : nat) (T : list (list AveragedWeight.t)) :
  Forall (λ row, length row = n) T →
  Forall (λ row, length row = n) (frozen_row time <$> T).
Proof.
  intros Hwf. apply Forall_fmap. eapply Forall_impl; [exact Hwf|].
  intros row Hrow. simpl. unfold frozen_row. by rewrite length_fmap.
Qed.

Lemma frozen_map_wf (n time : nat)
    (T : gmap string (list AveragedWeight.t)) :
  map_Forall (λ _ row, length row = n) T →
  map_Forall (λ _ row, length row = n) (frozen_row time <$> T).
Proof.
  intros Hwf. apply map_Forall_fmap. intros key row Hrow. simpl.
  unfold frozen_row. rewrite length_fmap. by apply (Hwf key row Hrow).
Qed.

Lemma frozen_inner_reserved (time : nat)
    (inner : gmap string AveragedWeight.t) :
  frozen_inner time inner !! "" = None.
Proof. unfold frozen_inner. by rewrite lookup_fmap, drop_reserved_lookup. Qed.

(** X5.  The freezing constructors with dense inner tables keep the
    class invariant: given an averaged model whose inner tables all have
    [InnerSize] cells, the frozen model's inner tables all have
    [InnerSize] cells, and the averaged model comes out with the same
    number of outer entries and the same invariant.  No entry is created
    in or removed from the averaged table. *)
Theorem freeze_keeps_invariant :
  (∀ avg : DenseMultinomialAveragedPerceptron.t,
     DenseMultinomialAveragedPerceptron.wf avg →
     ∃ m avg',
       DenseMultinomialPerceptron.MultinomialPerceptronTpl avg = Ok (m, avg')
       ∧ DenseMultinomialPerceptron.wf m
       ∧ DenseMultinomialAveragedPerceptron.wf avg'
       ∧ DenseMultinomialAveragedPerceptron.OuterSize avg'
         = DenseMultinomialAveragedPerceptron.OuterSize avg)
  ∧ (∀ avg : SparseDenseMultinomialAveragedPerceptron.t,
       SparseDenseMultinomialAveragedPerceptron.wf avg →
       ∃ m avg',
         SparseDenseMultinomialPerceptron.MultinomialPerceptronTpl avg
         = Ok (m, avg')
         ∧ SparseDenseMultinomialPerceptron.wf m
         ∧ SparseDenseMultinomialAveragedPerceptron.wf avg'
         ∧ dom (SparseDenseMultinomialAveragedPerceptron.table_ avg')
           = dom (SparseDenseMultinomialAveragedPerceptron.table_ avg)
         ∧ dom (SparseDenseMultinomialPerceptron.table_ m)
           = dom (SparseDenseMultinomialAveragedPerceptron.table_ avg)).
Proof.
  split.
  - intros avg Hwf. rewrite (Dense_freeze_run avg Hwf).
    eexists _, _. split; [done|].
    unfold DenseMultinomialPerceptron.wf,
      DenseMultinomialAveragedPerceptron.wf,
      DenseMultinomialAveragedPerceptron.OuterSize in *. simpl.
    split; [by apply frozen_rows_wf|]. split; [|by rewrite length_fmap].
    apply Forall_fmap. eapply Forall_impl; [exact Hwf|].
    intros row Hrow. simpl. unfold freshened_row. by rewrite length_fmap.
  - intros avg Hwf. rewrite (SparseDense_freeze_run avg Hwf).
    eexists _, _. split; [done|].
    unfold SparseDenseMultinomialPerceptron.wf,
      SparseDenseMultinomialAveragedPerceptron.wf in *. simpl.
    split; [by apply frozen_map_wf|]. split; [|by rewrite !dom_fmap_L].
    apply map_Forall_fmap. intros key row Hrow. simpl.
    unfold freshened_row. rewrite length_fmap. by apply (Hwf key row Hrow).
Qed.

Lemma freeze_keeps_invariant_witness :
  (∃ m avg',
     DenseMultinomialPerceptron.MultinomialPerceptronTpl
       sample_dense_averaged = Ok (m, avg')
     ∧ DenseMultinomialPerceptron.wf m)
  ∧ (∃ m avg',
       SparseDenseMultinomialPerceptron.MultinomialPerceptronTpl
         sample_sparse_dense_averaged = Ok (m, avg')
       ∧ SparseDenseMultinomialPerceptron.wf m).
Proof.
  destruct freeze_keeps_invariant as (HD & HSD). split.
  - destruct (HD sample_dense_averaged) as (m & avg' & Hrun & Hwf & _).
    + repeat constructor.
    + exists m, avg'. split; [exact Hrun|exact Hwf].
  - destruct (HSD sample_sparse_dense_averaged)
      as (m & avg' & Hrun & Hwf & _).
    + apply map_Forall_singleton. reflexivity.
    + exists m, avg'. split; [exact Hrun|exact Hwf].
Defined.

(** ** Freezing, writing, reading *)

(** X6.  A frozen model survives serialization unchanged: in each
    topology, reading back the stream [Write] produced for the model a
    freezing constructor built returns exactly that model.  For the
    fully sparse topology this needs no condition on the averaged model,
    since the constructor never stores a cell under the reserved label
    that [Write] would skip. *)
Theorem frozen_model_round_trip {sD sSD sS : Type}
    (cD : Codec sD DenseMultinomialPerceptron_pb.t)
    (cSD : Codec sSD SparseDenseMultinomialPerceptron_pb.t)
    (cS : Codec sS SparseMultinomialPerceptron_pb.t) :
  lawful cD → lawful cSD → lawful cS →
  (∀ avg : DenseMultinomialAveragedPerceptron.t,
     DenseMultinomialAveragedPerceptron.wf avg →
     ∃ m avg',
       DenseMultinomialPerceptron.MultinomialPerceptronTpl avg = Ok (m, avg')
       ∧ ∀ metadata ostrm,
           DenseMultinomialPerceptron.Write cD m metadata = Some ostrm →
           DenseMultinomialPerceptron.Read cD ostrm = Ok (Some m))
  ∧ (∀ avg : SparseDenseMultinomialAveragedPerceptron.t,
       SparseDenseMultinomialAveragedPerceptron.wf avg →
       ∃ m avg',
         SparseDenseMultinomialPerceptron.MultinomialPerceptronTpl avg
         = Ok (m, avg')
         ∧ ∀ metadata ostrm,
             SparseDenseMultinomialPerceptron.Write cSD m metadata
             = Ok (Some ostrm) →
             SparseDenseMultinomialPerceptron.Read cSD ostrm = Ok (Some m))
  ∧ (∀ (avg : SparseMultinomialAveragedPerceptron.t) metadata ostrm,
       let m := (SparseMultinomialPerceptron.MultinomialPerceptronTpl avg).1 in
       SparseMultinomialPerceptron.Write cS m metadata = Some ostrm →
       SparseMultinomialPerceptron.Read cS ostrm = Some m).
Proof.
  intros HlD HlSD HlS. split; [|split].
  - intros avg Hwf. rewrite (Dense_freeze_run avg Hwf).
    eexists _, _. split; [done|]. intros metadata ostrm Hwrite.
    apply (Dense_Read_Write cD _ metadata ostrm HlD); [|done].
    by apply frozen_rows_wf.
  - intros avg Hwf. rewrite (SparseDense_freeze_run avg Hwf).
    eexists _, _. split; [done|]. intros metadata ostrm Hwrite.
    apply (SparseDense_Read_Write cSD _ metadata ostrm HlSD); [|done].
    by apply frozen_map_wf.
  - intros avg metadata ostrm m Hwrite. subst m.
    rewrite Sparse_freeze_run in *. simpl in *.
    destruct (Sparse_Read_Write cS _ metadata ostrm HlS Hwrite) as [-> _].
    simpl. do 2 f_equal. apply map_fmap_fixed.
    intros key inner Hinner. simpl. apply drop_reserved_fixed.
    rewrite lookup_fmap in Hinner.
    destruct (_ !! key) as [ainner|]; [|done].
    injection Hinner as <-. apply frozen_inner_reserved.
Qed.

Lemma frozen_model_round_trip_witness :
  (∃ m avg',
     DenseMultinomialPerceptron.MultinomialPerceptronTpl
       sample_dense_averaged = Ok (m, avg')
     ∧ DenseMultinomialPerceptron.Read (framed _)
         [DenseMultinomialPerceptron.Write_pb m "v1"] = Ok (Some m))
  ∧ SparseMultinomialPerceptron.Read (framed _)
      [SparseMultinomialPerceptron.Write_pb
         (SparseMultinomialPerceptron.MultinomialPerceptronTpl
            sample_sparse_averaged).1 "v1"]
    = Some (SparseMultinomialPerceptron.MultinomialPerceptronTpl
              sample_sparse_averaged).1.
Proof.
  destruct (frozen_model_round_trip (framed _)
              (framed SparseDenseMultinomialPerceptron_pb.t) (framed _)
              (framed_lawful _) (framed_lawful _) (framed_lawful _))
    as (HD & _ & HS).
  split.
  - destruct (HD sample_dense_averaged) as (m & avg' & Hrun & Hback).
    + repeat constructor.
    + exists m, avg'. split; [exact Hrun|].
      apply (Hback "v1"). reflexivity.
  - apply (HS sample_sparse_averaged "v1"). reflexivity.
Defined.

(** ** The fully sparse round trip, exactly *)

Lemma drop_reserved_table_fixed (T : gmap string (gmap string Weight.t)) :
  drop_reserved <$> T = T
  ↔ map_Forall (λ _ (inner : gmap string Weight.t), inner !! "" = None) T.
Proof.
  rewrite map_fmap_fixed. split.
  - intros Hall key inner Hkey. simpl.
    apply drop_reserved_fixed. by apply (Hall key inner Hkey).
  - intros Hall key inner Hkey. simpl.
    apply drop_reserved_fixed. by apply (Hall key inner Hkey).
Qed.

(** X7.  For a fully sparse model, reading back what [Write] wrote
    returns the very model written if and only if no inner table of the
    model has an entry under the reserved empty label.  Whatever the
    model, the one read back has no such entry, so a second round trip
    returns it unchanged. *)
Theorem Sparse_round_trip_exact_iff {stream : Type}
    (codec : Codec stream SparseMultinomialPerceptron_pb.t) :
  lawful codec →
  (∀ m metadata ostrm,
     SparseMultinomialPerceptron.Write codec m metadata = Some ostrm →
     SparseMultinomialPerceptron.Read codec ostrm = Some m
     ↔ reserved_free m)
  ∧ (∀ m metadata ostrm m',
       SparseMultinomialPerceptron.Write codec m metadata = Some ostrm →
       SparseMultinomialPerceptron.Read codec ostrm = Some m' →
       reserved_free m'
       ∧ ∀ metadata' ostrm',
           SparseMultinomialPerceptron.Write codec m' metadata'
           = Some ostrm' →
           SparseMultinomialPerceptron.Read codec ostrm' = Some m').
Proof.
  intros Hlaw.
  assert (∀ m metadata ostrm,
            SparseMultinomialPerceptron.Write codec m metadata = Some ostrm →
            SparseMultinomialPerceptron.Read codec ostrm = Some m
            ↔ reserved_free m) as Hiff.
  { intros [T n] metadata ostrm Hwrite.
    destruct (Sparse_Read_Write codec _ metadata ostrm Hlaw Hwrite)
      as [-> _].
    unfold reserved_free. simpl. rewrite <-drop_reserved_table_fixed.
    split; [by intros [= ->]|by intros ->]. }
  split; [exact Hiff|].
  intros m metadata ostrm m' Hwrite Hread.
  assert (reserved_free m') as Hfree.
  { destruct (Sparse_Read_Write codec _ metadata ostrm Hlaw Hwrite)
      as [Hread' _].
    rewrite Hread' in Hread. injection Hread as <-.
    unfold reserved_free. simpl. intros key inner Hinner. simpl.
    rewrite lookup_fmap in Hinner.
    destruct (_ !! key) as [inner0|]; [|done]. injection Hinner as <-.
    by rewrite drop_reserved_lookup. }
  split; [exact Hfree|]. intros metadata' ostrm' Hwrite'.
  by apply (Hiff m' metadata' ostrm' Hwrite').
Qed.

Lemma Sparse_round_trip_exact_iff_witness :
  SparseMultinomialPerceptron.Read (framed _)
    [SparseMultinomialPerceptron.Write_pb sample_sparse "v1"]
  = Some sample_sparse
  ∧ SparseMultinomialPerceptron.Read (framed _)
      [SparseMultinomialPerceptron.Write_pb reserved_sparse "v1"]
    ≠ Some reserved_sparse.
Proof.
  destruct (Sparse_round_trip_exact_iff (framed _) (framed_lawful _))
    as (Hiff & _).
  split.
  - apply (Hiff sample_sparse "v1"); [reflexivity|].
    unfold reserved_free. simpl. apply map_Forall_singleton. reflexivity.
  - intros Hread.
    apply (Hiff reserved_sparse "v1") in Hread; [|reflexivity].
    unfold reserved_free in Hread. simpl in Hread.
    apply map_Forall_singleton in Hread.
    rewrite lookup_singleton_eq in Hread. discriminate.
Defined.

(** ** Outer entries through the fully sparse chain *)

(** X8.  With sparse outer and inner tables, every feature key is kept
    by each step: the frozen table has exactly the feature keys of the
    averaged table, which itself keeps its keys; the message has exactly
    the feature keys of the model written; the model read has exactly
    those of the message.  A feature whose inner table holds nothing but
    the reserved label is therefore kept, with an empty inner table,
    by the constructor and by [Write]. *)
Theorem Sparse_outer_keys_kept :
  (∀ avg : SparseMultinomialAveragedPerceptron.t,
     let r := SparseMultinomialPerceptron.MultinomialPerceptronTpl avg in
     dom (SparseMultinomialPerceptron.table_ r.1)
     = dom (SparseMultinomialAveragedPerceptron.table_ avg)
     ∧ dom (SparseMultinomialAveragedPerceptron.table_ r.2)
       = dom (SparseMultinomialAveragedPerceptron.table_ avg)
     ∧ ∀ key inner,
         SparseMultinomialAveragedPerceptron.table_ avg !! key = Some inner →
         (∀ label, is_Some (inner !! label) → label = "") →
         SparseMultinomialPerceptron.table_ r.1 !! key = Some ∅)
  ∧ (∀ (m : SparseMultinomialPerceptron.t) (metadata : string),
       let pb := SparseMultinomialPerceptron.Write_pb m metadata in
       dom (SparseMultinomialPerceptron_pb.table pb)
       = dom (SparseMultinomialPerceptron.table_ m)
       ∧ ∀ key inner,
           SparseMultinomialPerceptron.table_ m !! key = Some inner →
           (∀ label, is_Some (inner !! label) → label = "") →
           SparseMultinomialPerceptron_pb.table pb !! key
           = Some SparseInnerTable_pb.empty)
  ∧ (∀ (stream : Type)
       (codec : Codec stream SparseMultinomialPerceptron_pb.t)
       (istrm : stream) (pb : SparseMultinomialPerceptron_pb.t)
       (m : SparseMultinomialPerceptron.t),
       ParseFromIstream codec istrm = Some pb →
       SparseMultinomialPerceptron.Read codec istrm = Some m →
       dom (SparseMultinomialPerceptron.table_ m)
       = dom (SparseMultinomialPerceptron_pb.table pb)).
Proof.
  assert (∀ (A : Type) (inner : gmap string A),
            (∀ label, is_Some (inner !! label) → label = "") →
            drop_reserved inner = ∅) as Hempty.
  { intros A inner Hall. apply map_eq. intros label.
    rewrite drop_reserved_lookup, lookup_empty.
    destruct (string_empty label) eqn:He; [done|].
    apply string_empty_false in He.
    destruct (inner !! label) as [x|] eqn:Hx; [|done].
    destruct He. apply Hall. by rewrite Hx. }
  split; [|split].
  - intros avg. cbv zeta. rewrite Sparse_freeze_run. simpl.
    split; [by rewrite dom_fmap_L|]. split; [by rewrite dom_fmap_L|].
    intros key inner Hkey Hall. rewrite lookup_fmap, Hkey. simpl.
    unfold frozen_inner. by rewrite (Hempty _ inner Hall), fmap_empty.
  - intros m metadata. cbv zeta. rewrite Sparse_Write_pb_eq. simpl.
    split; [by rewrite dom_fmap_L|].
    intros key inner Hkey Hall. rewrite lookup_fmap, Hkey. simpl.
    unfold sparse_inner_pb. by rewrite (Hempty _ inner Hall), fmap_empty.
  - intros stream codec istrm pb m Hparse Hread.
    rewrite (Sparse_Read_run codec istrm pb Hparse) in Hread.
    injection Hread as <-. simpl. by rewrite dom_fmap_L.
Qed.

Lemma Sparse_outer_keys_kept_witness :
  SparseMultinomialPerceptron_pb.table
    (SparseMultinomialPerceptron.Write_pb reserved_sparse "v1") !! "bias"
  = Some SparseInnerTable_pb.empty
  ∧ dom (SparseMultinomialPerceptron.table_
           (SparseMultinomialPerceptron.Make
              (sparse_inner_of_pb
                 <$> SparseMultinomialPerceptron_pb.table sample_sparse_pb)
              2))
    = dom (SparseMultinomialPerceptron_pb.table sample_sparse_pb).
Proof.
  destruct Sparse_outer_keys_kept as (_ & HW & HR). split.
  - apply (proj2 (HW reserved_sparse "v1") "bias"
             {[ "" := sample_weight 1 ]}).
    + reflexivity.
    + intros label [x Hx].
      destruct (decide (label = "")) as [->|Hne]; [reflexivity|].
      rewrite lookup_singleton_ne in Hx by done. discriminate.
  - apply (HR _ (framed _) [sample_sparse_pb] sample_sparse_pb).
    + reflexivity.
    + by apply (Sparse_Read_run (framed _) [sample_sparse_pb]).
Defined.

(** ** What the model read depends on *)

Lemma canonical_rows_fixed (n : nat) (T : list DenseInnerTable_pb.t) :
  Forall (λ inner, length (DenseInnerTable_pb.table inner) = n) T →
  row_pb <$> (row_of_pb n <$> T) = T.
Proof.
  intros Hcan. rewrite <-list_fmap_compose. apply list_fmap_fixed.
  eapply Forall_impl; [exact Hcan|]. intros inner Hlen. simpl in *.
  apply row_pb_row_of_pb_fixed; lia.
Qed.

Lemma canonical_map_fixed (n : nat) (T : gmap string DenseInnerTable_pb.t) :
  map_Forall (λ _ inner, length (DenseInnerTable_pb.table inner) = n) T →
  row_pb <$> (row_of_pb n <$> T) = T.
Proof.
  intros Hcan. rewrite <-map_fmap_compose. apply map_fmap_fixed.
  intros key inner Hkey. simpl.
  pose proof (Hcan key inner Hkey) as Hlen. simpl in Hlen.
  apply row_pb_row_of_pb_fixed; lia.
Qed.

Lemma canonical_sparse_fixed (T : gmap string SparseInnerTable_pb.t) :
  map_Forall (λ _ inner, SparseInnerTable_pb.table inner !! "" = None) T →
  sparse_inner_pb <$> (sparse_inner_of_pb <$> T) = T.
Proof.
  intros Hcan. rewrite <-map_fmap_compose. apply map_fmap_fixed.
  intros key inner Hkey. simpl.
  apply sparse_inner_pb_of_pb_fixed. by apply (Hcan key inner Hkey).
Qed.

(** X9.  [Read] never consults the metadata: two streams whose messages
    have the same [inner_size] and the same table are read to the same
    result.  On messages in the form [Write] emits the converse holds
    too, so there the metadata is all that [Read] loses: messages read to
    the same model only if their [inner_size] and tables are equal. *)
Theorem Read_depends_on_table_only {sD sSD sS : Type}
    (cD : Codec sD DenseMultinomialPerceptron_pb.t)
    (cSD : Codec sSD SparseDenseMultinomialPerceptron_pb.t)
    (cS : Codec sS SparseMultinomialPerceptron_pb.t) :
  (∀ istrm1 istrm2 pb1 pb2,
     ParseFromIstream cD istrm1 = Some pb1 →
     ParseFromIstream cD istrm2 = Some pb2 →
     (DenseMultinomialPerceptron_pb.inner_size pb1
      = DenseMultinomialPerceptron_pb.inner_size pb2
      ∧ DenseMultinomialPerceptron_pb.table pb1
        = DenseMultinomialPerceptron_pb.table pb2 →
      DenseMultinomialPerceptron.Read cD istrm1
      = DenseMultinomialPerceptron.Read cD istrm2)
     ∧ (Dense_pb_canonical pb1 → Dense_pb_canonical pb2 →
        DenseMultinomialPerceptron.Read cD istrm1
        = DenseMultinomialPerceptron.Read cD istrm2 →
        DenseMultinomialPerceptron_pb.inner_size pb1
        = DenseMultinomialPerceptron_pb.inner_size pb2
        ∧ DenseMultinomialPerceptron_pb.table pb1
          = DenseMultinomialPerceptron_pb.table pb2))
  ∧ (∀ istrm1 istrm2 pb1 pb2,
       ParseFromIstream cSD istrm1 = Some pb1 →
       ParseFromIstream cSD istrm2 = Some pb2 →
       (SparseDenseMultinomialPerceptron_pb.inner_size pb1
        = SparseDenseMultinomialPerceptron_pb.inner_size pb2
        ∧ SparseDenseMultinomialPerceptron_pb.table pb1
          = SparseDenseMultinomialPerceptron_pb.table pb2 →
        SparseDenseMultinomialPerceptron.Read cSD istrm1
        = SparseDenseMultinomialPerceptron.Read cSD istrm2)
       ∧ (SparseDense_pb_canonical pb1 → SparseDense_pb_canonical pb2 →
          SparseDenseMultinomialPerceptron.Read cSD istrm1
          = SparseDenseMultinomialPerceptron.Read cSD istrm2 →
          SparseDenseMultinomialPerceptron_pb.inner_size pb1
          = SparseDenseMultinomialPerceptron_pb.inner_size pb2
          ∧ SparseDenseMultinomialPerceptron_pb.table pb1
            = SparseDenseMultinomialPerceptron_pb.table pb2))
  ∧ (∀ istrm1 istrm2 pb1 pb2,
       ParseFromIstream cS istrm1 = Some pb1 →
       ParseFromIstream cS istrm2 = Some pb2 →
       (SparseMultinomialPerceptron_pb.inner_size pb1
        = SparseMultinomialPerceptron_pb.inner_size pb2
        ∧ SparseMultinomialPerceptron_pb.table pb1
          = SparseMultinomialPerceptron_pb.table pb2 →
        SparseMultinomialPerceptron.Read cS istrm1
        = SparseMultinomialPerceptron.Read cS istrm2)
       ∧ (Sparse_pb_canonical pb1 → Sparse_pb_canonical pb2 →
          SparseMultinomialPerceptron.Read cS istrm1
          = SparseMultinomialPerceptron.Read cS istrm2 →
          SparseMultinomialPerceptron_pb.inner_size pb1
          = SparseMultinomialPerceptron_pb.inner_size pb2
          ∧ SparseMultinomialPerceptron_pb.table pb1
            = SparseMultinomialPerceptron_pb.table pb2)).
Proof.
  split; [|split].
  - intros istrm1 istrm2 [meta1 n1 T1] [meta2 n2 T2] Hp1 Hp2. split.
    + simpl. intros [-> ->]. unfold DenseMultinomialPerceptron.Read.
      by rewrite Hp1, Hp2.
    + unfold Dense_pb_canonical. simpl. intros Hc1 Hc2.
      assert (∀ meta n T,
                Forall (λ inner,
                          length (DenseInnerTable_pb.table inner) = n) T →
                Dense_pb_wf (DenseMultinomialPerceptron_pb.Make meta n T))
        as Hwf.
      { intros meta n T Hc. unfold Dense_pb_wf. simpl.
        eapply Forall_impl; [exact Hc|]. simpl. intros; lia. }
      rewrite (Dense_Read_run cD istrm1 _ Hp1 (Hwf _ _ _ Hc1)),
        (Dense_Read_run cD istrm2 _ Hp2 (Hwf _ _ _ Hc2)).
      simpl. intros [= HT ->]. split; [done|].
      apply (f_equal (fmap row_pb)) in HT.
      by rewrite !canonical_rows_fixed in HT.
  - intros istrm1 istrm2 [meta1 n1 T1] [meta2 n2 T2] Hp1 Hp2. split.
    + simpl. intros [-> ->]. unfold SparseDenseMultinomialPerceptron.Read.
      by rewrite Hp1, Hp2.
    + unfold SparseDense_pb_canonical. simpl. intros Hc1 Hc2.
      assert (∀ meta n T,
                map_Forall (λ _ inner,
                              length (DenseInnerTable_pb.table inner) = n)
                  T →
                SparseDense_pb_wf
                  (SparseDenseMultinomialPerceptron_pb.Make meta n T))
        as Hwf.
      { intros meta n T Hc. unfold SparseDense_pb_wf. simpl.
        intros key inner Hkey.
        pose proof (Hc key inner Hkey) as Hlen. simpl in *. lia. }
      rewrite (SparseDense_Read_run cSD istrm1 _ Hp1 (Hwf _ _ _ Hc1)),
        (SparseDense_Read_run cSD istrm2 _ Hp2 (Hwf _ _ _ Hc2)).
      simpl. intros [= HT ->]. split; [done|].
      apply (f_equal (fmap row_pb)) in HT.
      by rewrite !canonical_map_fixed in HT.
  - intros istrm1 istrm2 [meta1 n1 T1] [meta2 n2 T2] Hp1 Hp2. split.
    + simpl. intros [-> ->]. unfold SparseMultinomialPerceptron.Read.
      by rewrite Hp1, Hp2.
    + unfold Sparse_pb_canonical. simpl. intros Hc1 Hc2.
      rewrite (Sparse_Read_run cS istrm1 _ Hp1),
        (Sparse_Read_run cS istrm2 _ Hp2).
      simpl. intros [= HT ->]. split; [done|].
      apply (f_equal (fmap sparse_inner_pb)) in HT.
      by rewrite !canonical_sparse_fixed in HT.
Qed.

Lemma Read_depends_on_table_only_witness :
  DenseMultinomialPerceptron.Read (framed _) [sample_dense_pb]
  = DenseMultinomialPerceptron.Read (framed _)
      [DenseMultinomialPerceptron_pb.set_metadata sample_dense_pb "v2"]
  ∧ SparseMultinomialPerceptron.Read (framed _) [sample_sparse_pb]
    = SparseMultinomialPerceptron.Read (framed _)
        [SparseMultinomialPerceptron_pb.set_metadata sample_sparse_pb "v2"].
Proof.
  destruct (Read_depends_on_table_only (framed _)
              (framed SparseDenseMultinomialPerceptron_pb.t) (framed _))
    as (HD & _ & HS).
  split.
  - apply (proj1 (HD [sample_dense_pb]
                    [DenseMultinomialPerceptron_pb.set_metadata
                       sample_dense_pb "v2"]
                    _ _ eq_refl eq_refl)).
    split; reflexivity.
  - apply (proj1 (HS [sample_sparse_pb]
                    [SparseMultinomialPerceptron_pb.set_metadata
                       sample_sparse_pb "v2"]
                    _ _ eq_refl eq_refl)).
    split; reflexivity.
Defined.
